(** * Invoice server actions (app/lib/actions.ts): a shallow embedding

    The module under study exports three server actions, [createInvoice],
    [updateInvoice] and [deleteInvoice].  They read a [FormData], validate it
    with a zod (v3) object schema, multiply the amount by 100, talk to a
    Postgres store through [sql], and finally call [revalidatePath] and
    [redirect].

    The embedding follows the source line by line:
    - JavaScript values are a small tagged union ([JsValue]); numbers are
      IEEE-754 binary64 values, represented by the standard library's
      [spec_float] with [prec = 53] and [emax = 1024];
    - [Number(x)] (used by [z.coerce.number()]) is [ToNumber], with the
      ECMAScript string-to-number grammar written out;
    - zod's [ZodString], [ZodNumber], [ZodEnum] and [ZodObject] parsers add
      issues to a parse context in the order of the object's shape, and
      [flatten] groups the messages by the first path element;
    - the actions run in a state-and-exception monad over a [World] made of
      the invoices table, the wall clock and the list of observable effects;
      [redirect] leaves by throwing, as in Next.js. *)

From Stdlib Require Import ZArith String Ascii List Lia Bool.
From Stdlib Require Import Floats.
From stdpp Require Import gmap strings list.

Set Warnings "-inexact-float".
Open Scope Z_scope.

(** ** JavaScript numbers *)

Module JsNumber.

Definition prec : Z := 53.
Definition emax : Z := 1024.

Abbreviation number := spec_float.

Definition NaN : number := S754_nan.
Definition pos_zero : number := S754_zero false.
Definition neg_zero : number := S754_zero true.
Definition pos_infinity : number := S754_infinity false.
Definition neg_infinity : number := S754_infinity true.

(** The Number nearest to an integer (ties to even). *)
Definition of_Z (z : Z) : number := binary_normalize prec emax z 0 false.

(** [x * y] *)
Definition mul (x y : number) : number := SFmul prec emax x y.

(** [x > y] *)
Definition gt (x y : number) : bool := SFltb y x.

(** [x <= y] *)
Definition le (x y : number) : bool := SFleb x y.

Definition is_nan (x : number) : bool :=
  match x with S754_nan => true | _ => false end.

(** A Number is integral when it is finite and has no fractional bits. *)
Definition is_integer (x : number) : bool :=
  match x with
  | S754_zero _ => true
  | S754_finite _ m e =>
      if 0 <=? e then true else (Z.pos m mod 2 ^ (- e) =? 0)
  | _ => false
  end.

(** The Number nearest to [(-1)^neg * m * 10^e], for [0 <= m]: the value
    of a decimal literal.  A zero mantissa keeps the sign. *)
Definition of_decimal (neg : bool) (m e : Z) : number :=
  match m with
  | Z.pos p =>
      if 0 <=? e
      then binary_normalize prec emax
             ((if neg then - 1 else 1) * (Z.pos p * 10 ^ e)) 0 false
      else SFdiv prec emax (S754_finite neg p 0)
             (S754_finite false (Z.to_pos (10 ^ (- e))) 0)
  | _ => S754_zero neg
  end.

End JsNumber.

Import JsNumber.

(** ** Strings as UTF-8 code units, and [StringToNumber]

    ECMAScript's [StringToNumber] (the semantics of [Number(s)]): strip
    white space and line terminators at both ends, then read a
    [StrNumericLiteral]; the empty string is [+0], anything that is not a
    literal is [NaN].  Decimal literals are rounded to the nearest Number,
    ties to even, as V8 does for any number of digits. *)

Module StrNum.

Definition codes (s : string) : list Z :=
  map (fun c => Z.of_N (N_of_ascii c)) (list_ascii_of_string s).

(** [StrWhiteSpaceChar]: TAB, LF, VT, FF, CR, SP, then U+00A0, U+1680,
    U+2000..U+200A, U+2028, U+2029, U+202F, U+205F, U+3000 and U+FEFF in
    their UTF-8 encodings. *)
Definition white_space : list (list Z) :=
  [ [9]; [10]; [11]; [12]; [13]; [32];
    [194; 160]; [225; 154; 128];
    [226; 128; 128]; [226; 128; 129]; [226; 128; 130]; [226; 128; 131];
    [226; 128; 132]; [226; 128; 133]; [226; 128; 134]; [226; 128; 135];
    [226; 128; 136]; [226; 128; 137]; [226; 128; 138];
    [226; 128; 168]; [226; 128; 169]; [226; 128; 175];
    [226; 129; 159]; [227; 128; 128]; [239; 187; 191] ].

Fixpoint strip_prefix (p l : list Z) : option (list Z) :=
  match p, l with
  | [], _ => Some l
  | a :: p', b :: l' => if a =? b then strip_prefix p' l' else None
  | _ :: _, [] => None
  end.

Fixpoint strip_any (ps : list (list Z)) (l : list Z) : option (list Z) :=
  match ps with
  | [] => None
  | p :: ps' =>
      match strip_prefix p l with
      | Some r => Some r
      | None => strip_any ps' l
      end
  end.

Fixpoint trim_start_fuel (fuel : nat) (ps : list (list Z)) (l : list Z)
  : list Z :=
  match fuel with
  | O => l
  | S fuel' =>
      match strip_any ps l with
      | Some r => trim_start_fuel fuel' ps r
      | None => l
      end
  end.

Definition trim_start (l : list Z) : list Z :=
  trim_start_fuel (length l) white_space l.

Definition trim_end (l : list Z) : list Z :=
  rev (trim_start_fuel (length l) (map (@rev Z) white_space) (rev l)).

Definition trim (l : list Z) : list Z := trim_end (trim_start l).

Definition is_digit (c : Z) : bool := (48 <=? c) && (c <=? 57).

(** Reads [DecimalDigits]: the value accumulated on [acc], how many digits
    were read, and the rest of the input. *)
Fixpoint digits (l : list Z) (acc n : Z) : Z * Z * list Z :=
  match l with
  | c :: l' =>
      if is_digit c then digits l' (10 * acc + (c - 48)) (n + 1)
      else (acc, n, l)
  | [] => (acc, n, l)
  end.

Definition radix_digit (c : Z) : option Z :=
  if is_digit c then Some (c - 48)
  else if (97 <=? c) && (c <=? 102) then Some (c - 87)
  else if (65 <=? c) && (c <=? 70) then Some (c - 55)
  else None.

(** One or more digits of the given radix, up to the end of the input. *)
Fixpoint radix_digits (radix : Z) (l : list Z) (acc : Z) (seen : bool)
  : option Z :=
  match l with
  | [] => if seen then Some acc else None
  | c :: l' =>
      match radix_digit c with
      | Some d =>
          if d <? radix then radix_digits radix l' (radix * acc + d) true
          else None
      | None => None
      end
  end.

(** [NonDecimalIntegerLiteral]: 0x / 0o / 0b, either case, no sign. *)
Definition non_decimal (l : list Z) : option (option Z) :=
  match l with
  | 48 :: x :: r =>
      if (x =? 120) || (x =? 88) then Some (radix_digits 16 r 0 false)
      else if (x =? 111) || (x =? 79) then Some (radix_digits 8 r 0 false)
      else if (x =? 98) || (x =? 66) then Some (radix_digits 2 r 0 false)
      else None
  | _ => None
  end.

(** [ExponentPart] after its [e]: optional sign, digits, end of input. *)
Definition exponent (l : list Z) : option Z :=
  let '(neg, l1) :=
    match l with
    | 43 :: r => (false, r)
    | 45 :: r => (true, r)
    | _ => (false, l)
    end in
  let '(v, n, rest) := digits l1 0 0 in
  match rest with
  | [] => if 0 <? n then Some (if neg : bool then - v else v) else None
  | _ :: _ => None
  end.

Definition list_Z_eqb (a b : list Z) : bool :=
  bool_decide (a = b).

(** [StrUnsignedDecimalLiteral] *)
Definition unsigned_decimal (neg : bool) (l : list Z) : number :=
  if list_Z_eqb l (codes "Infinity") then S754_infinity neg
  else
    let '(ip, ni, r1) := digits l 0 0 in
    let '(m, nf, r2) :=
      match r1 with
      | 46 :: r => digits r ip 0
      | _ => (ip, 0, r1)
      end in
    if ni + nf =? 0 then NaN
    else
      match r2 with
      | [] => of_decimal neg m (- nf)
      | c :: r3 =>
          if (c =? 101) || (c =? 69) then
            match exponent r3 with
            | Some e => of_decimal neg m (e - nf)
            | None => NaN
            end
          else NaN
      end.

Definition StringToNumber (s : string) : number :=
  match trim (codes s) with
  | [] => pos_zero
  | l =>
      match non_decimal l with
      | Some (Some z) => of_Z z
      | Some None => NaN
      | None =>
          match l with
          | 43 :: r => unsigned_decimal false r
          | 45 :: r => unsigned_decimal true r
          | _ => unsigned_decimal false l
          end
      end
  end.

End StrNum.

Import StrNum.

(** ** JavaScript values and [FormData] *)

Inductive JsValue :=
| JUndefined
| JNull
| JString (s : string)
| JNumber (x : number)
| JFile (name : string).

#[global] Instance JsValue_inhabited : Inhabited JsValue := populate JUndefined.

(** A plain object: a finite map from property names to values; reading a
    property that is not there gives [undefined] (stdpp's total lookup
    [!!!] with the inhabitant above). *)
Abbreviation JsObject := (gmap string JsValue).

(** [Number(v)] *)
Definition ToNumber (v : JsValue) : number :=
  match v with
  | JUndefined => NaN
  | JNull => pos_zero
  | JString s => StringToNumber s
  | JNumber x => x
  | JFile _ => NaN (* ToPrimitive gives "[object File]" *)
  end.

(** [a * b] on arbitrary operands *)
Definition js_mul (a b : JsValue) : JsValue :=
  JNumber (mul (ToNumber a) (ToNumber b)).

Inductive FormDataEntryValue :=
| EntryString (s : string)
| EntryFile (name : string).

(** The entry list of a [FormData], in insertion order. *)
Definition FormData := list (string * FormDataEntryValue).

Definition entry_value (e : FormDataEntryValue) : JsValue :=
  match e with
  | EntryString s => JString s
  | EntryFile n => JFile n
  end.

(** [formData.get(name)]: the first entry of that name, or [null]. *)
Fixpoint FormData_get (name : string) (fd : FormData) : JsValue :=
  match fd with
  | [] => JNull
  | (k, e) :: fd' =>
      if String.eqb k name then entry_value e else FormData_get name fd'
  end.

(** ** zod (v3): issues, error maps, the parsers the schema uses *)

Module Zod.

Inductive ZodParsedType :=
| pt_string | pt_nan | pt_number | pt_undefined | pt_null | pt_object.

Definition getParsedType (v : JsValue) : ZodParsedType :=
  match v with
  | JUndefined => pt_undefined
  | JNull => pt_null
  | JString _ => pt_string
  | JNumber x => if is_nan x then pt_nan else pt_number
  | JFile _ => pt_object
  end.

Definition parsed_type_name (t : ZodParsedType) : string :=
  match t with
  | pt_string => "string"
  | pt_nan => "nan"
  | pt_number => "number"
  | pt_undefined => "undefined"
  | pt_null => "null"
  | pt_object => "object"
  end.

(** What a parser hands to [addIssueToContext]. *)
Inductive IssueData :=
| invalid_type (expected : string) (received : ZodParsedType)
| invalid_enum_value (options : list string) (received : string)
| too_small (minimum : number) (inclusive : bool) (message : string).

Record ZodIssue := mkIssue {
  issue_data : IssueData;
  issue_path : list string;
  issue_message : string
}.

(** [util.joinValues]: quoted strings joined by [" | "]. *)
Fixpoint joinValues (vs : list string) : string :=
  match vs with
  | [] => EmptyString
  | [v] => "'" +:+ v +:+ "'"
  | v :: vs' => "'" +:+ v +:+ "' | " +:+ joinValues vs'
  end.

(** The default (English) error map, on the issue codes that occur.  A
    [too_small] issue always comes with the message of its check here (see
    [ZodNumberCheck]), and that message is its text. *)
Definition defaultErrorMap (iss : IssueData) : string :=
  match iss with
  | invalid_type expected received =>
      match received with
      | pt_undefined => "Required"
      | _ => "Expected " +:+ expected +:+ ", received "
               +:+ parsed_type_name received
      end
  | invalid_enum_value options received =>
      "Invalid enum value. Expected " +:+ joinValues options
        +:+ ", received '" +:+ received +:+ "'"
  | too_small _ _ message => message
  end.

Record RawCreateParams := {
  invalid_type_error : option string;
  required_error : option string
}.

Definition no_params : RawCreateParams :=
  {| invalid_type_error := None; required_error := None |}.

(** The error map [processCreateParams] builds for a schema that is given
    no [message] and no [errorMap]: [required_error] is for data that is
    [undefined], [invalid_type_error] for [invalid_type] issues on other
    data, and an [invalid_enum_value] issue keeps the default text. *)
Definition customMap (params : RawCreateParams) (iss : IssueData)
    (data : JsValue) (defaultError : string) : string :=
  match iss with
  | invalid_enum_value _ _ => defaultError
  | _ =>
      match data with
      | JUndefined => default defaultError (required_error params)
      | _ =>
          match iss with
          | invalid_type _ _ => default defaultError (invalid_type_error params)
          | _ => defaultError
          end
      end
  end.

(** [makeIssue]: a message given with the issue wins; otherwise the
    default map runs first and the schema's map sees its text. *)
Definition makeIssue (params : RawCreateParams) (data : JsValue)
    (path : list string) (iss : IssueData) : ZodIssue :=
  let message :=
    match iss with
    | too_small _ _ m => m
    | _ => customMap params iss data (defaultErrorMap iss)
    end in
  mkIssue iss path message.

(** The parse context: the issues collected so far, oldest first. *)
Definition ParseContext := list ZodIssue.

Definition addIssueToContext (ctx : ParseContext) (i : ZodIssue)
  : ParseContext := ctx ++ [i].

Inductive ParseReturn (A : Type) :=
| INVALID
| DIRTY (value : A)
| OK (value : A).
Arguments INVALID {A}.
Arguments DIRTY {A} value.
Arguments OK {A} value.

(** The [min] check that [.gt] and [.gte] add.  zod lets the message be
    left out; the schema at hand gives one, and the default text, which
    prints the bound, is not modelled. *)
Inductive ZodNumberCheck :=
| check_min (value : number) (inclusive : bool) (message : string).

Inductive ZodType :=
| ZodString (params : RawCreateParams)
| ZodNumber (coerce : bool) (checks : list ZodNumberCheck)
    (params : RawCreateParams)
| ZodEnum (values : list string) (params : RawCreateParams).

(** The loop over the checks of [ZodNumber._parse]; [min] with
    [inclusive: false] is violated when [data <= value]. *)
Fixpoint run_checks (params : RawCreateParams) (path : list string)
    (x : number) (checks : list ZodNumberCheck) (dirty : bool)
    (ctx : ParseContext) : bool * ParseContext :=
  match checks with
  | [] => (dirty, ctx)
  | check_min value inclusive message :: rest =>
      let tooSmall := if inclusive then gt value x else le x value in
      if tooSmall
      then run_checks params path x rest true
             (addIssueToContext ctx
                (makeIssue params (JNumber x) path
                   (too_small value inclusive message)))
      else run_checks params path x rest dirty ctx
  end.

Definition string_in (s : string) (l : list string) : bool :=
  existsb (String.eqb s) l.

(** [schema._parse(input)] with the issues threaded through. *)
Definition _parse (t : ZodType) (path : list string) (data : JsValue)
    (ctx : ParseContext) : ParseReturn JsValue * ParseContext :=
  match t with
  | ZodString params =>
      match data with
      | JString _ => (OK data, ctx)
      | _ =>
          (INVALID,
           addIssueToContext ctx
             (makeIssue params data path
                (invalid_type "string" (getParsedType data))))
      end
  | ZodNumber coerce checks params =>
      let data := if coerce then JNumber (ToNumber data) else data in
      match data with
      | JNumber x =>
          if is_nan x
          then (INVALID,
                addIssueToContext ctx
                  (makeIssue params data path
                     (invalid_type "number" pt_nan)))
          else
            let '(dirty, ctx') := run_checks params path x checks false ctx in
            (if dirty then DIRTY data else OK data, ctx')
      | _ =>
          (INVALID,
           addIssueToContext ctx
             (makeIssue params data path
                (invalid_type "number" (getParsedType data))))
      end
  | ZodEnum values params =>
      match data with
      | JString s =>
          if string_in s values then (OK data, ctx)
          else (INVALID,
                addIssueToContext ctx
                  (makeIssue params data path
                     (invalid_enum_value values s)))
      | _ =>
          (INVALID,
           addIssueToContext ctx
             (makeIssue params data path
                (invalid_type (joinValues values) (getParsedType data))))
      end
  end.

(** An object schema: its shape, in declaration order. *)
Definition ZodObject := list (string * ZodType).

(** [schema.omit(mask)]: the shape without the masked keys. *)
Definition omit (mask : list string) (schema : ZodObject) : ZodObject :=
  List.filter (fun kv => negb (string_in (fst kv) mask)) schema.

(** [ZodObject._parse] on a plain object, unknown keys stripped: every
    key of the shape is parsed, in order, whatever happened to the keys
    before it; the results are merged afterwards. *)
Fixpoint parse_pairs (shape : ZodObject) (data : JsObject)
    (ctx : ParseContext)
  : list (string * ParseReturn JsValue) * ParseContext :=
  match shape with
  | [] => ([], ctx)
  | (key, validator) :: shape' =>
      let '(r, ctx1) := _parse validator [key] (data !!! key) ctx in
      let '(rs, ctx2) := parse_pairs shape' data ctx1 in
      ((key, r) :: rs, ctx2)
  end.

(** [ParseStatus.mergeObjectSync] *)
Fixpoint mergeObjectSync (pairs : list (string * ParseReturn JsValue))
    (dirty : bool) (finalObject : JsObject) : ParseReturn JsObject :=
  match pairs with
  | [] => if dirty then DIRTY finalObject else OK finalObject
  | (key, INVALID) :: _ => INVALID
  | (key, DIRTY v) :: rest =>
      mergeObjectSync rest true (<[key := v]> finalObject)
  | (key, OK v) :: rest =>
      mergeObjectSync rest dirty (<[key := v]> finalObject)
  end.

Definition object_parse (schema : ZodObject) (data : JsObject)
    (ctx : ParseContext) : ParseReturn JsObject * ParseContext :=
  let '(pairs, ctx') := parse_pairs schema data ctx in
  (mergeObjectSync pairs false ∅, ctx').

Inductive SafeParseReturn :=
| SafeParseSuccess (data : JsObject)
| SafeParseError (issues : list ZodIssue).

(** [schema.safeParse(data)]: success only for a result that is valid
    (neither aborted nor dirty). *)
Definition safeParse (schema : ZodObject) (data : JsObject)
  : SafeParseReturn :=
  match object_parse schema data [] with
  | (OK v, _) => SafeParseSuccess v
  | (_, issues) => SafeParseError issues
  end.

Definition success (r : SafeParseReturn) : bool :=
  match r with SafeParseSuccess _ => true | SafeParseError _ => false end.

(** [error.flatten().fieldErrors]: the messages grouped by the first path
    element, each group in issue order.  (No issue of these schemas has an
    empty path, so [formErrors] stays empty.) *)
Definition flatten_step (fieldErrors : gmap string (list string))
    (sub : ZodIssue) : gmap string (list string) :=
  match issue_path sub with
  | key :: _ =>
      <[key := default [] (fieldErrors !! key) ++ [issue_message sub]]>
        fieldErrors
  | [] => fieldErrors
  end.

Definition fieldErrors (issues : list ZodIssue)
  : gmap string (list string) :=
  fold_left flatten_step issues ∅.

End Zod.

Import Zod.

(** ** [Date]: time values, the civil calendar and [toISOString] *)

Module JsDate.

Definition msPerDay : Z := 86400000.

Definition Day (t : Z) : Z := t / msPerDay.

Definition DaysInYear (y : Z) : Z :=
  if negb (y mod 4 =? 0) then 365
  else if negb (y mod 100 =? 0) then 366
  else if negb (y mod 400 =? 0) then 365
  else 366.

(** The day number of the first day of year [y]. *)
Definition DayFromYear (y : Z) : Z :=
  365 * (y - 1970) + (y - 1969) / 4 - (y - 1901) / 100 + (y - 1601) / 400.

(** The year a day number falls in: ECMAScript asks for the largest [y]
    with [DayFromYear y <= d]; an estimate from the mean year length is
    at most one year off. *)
Definition YearFromDay (d : Z) : Z :=
  let y0 := 1970 + (400 * d) / 146097 in
  if d <? DayFromYear y0 then y0 - 1
  else if DayFromYear (y0 + 1) <=? d then y0 + 1
  else y0.

Definition YearFromTime (t : Z) : Z := YearFromDay (Day t).

Definition InLeapYear (t : Z) : Z :=
  if DaysInYear (YearFromTime t) =? 366 then 1 else 0.

Definition DayWithinYear (t : Z) : Z := Day t - DayFromYear (YearFromTime t).

(** Months are numbered from 0. *)
Definition MonthFromTime (t : Z) : Z :=
  let d := DayWithinYear t in
  let leap := InLeapYear t in
  if d <? 31 then 0
  else if d <? 59 + leap then 1
  else if d <? 90 + leap then 2
  else if d <? 120 + leap then 3
  else if d <? 151 + leap then 4
  else if d <? 181 + leap then 5
  else if d <? 212 + leap then 6
  else if d <? 243 + leap then 7
  else if d <? 273 + leap then 8
  else if d <? 304 + leap then 9
  else if d <? 334 + leap then 10
  else 11.

Definition DateFromTime (t : Z) : Z :=
  let d := DayWithinYear t in
  let leap := InLeapYear t in
  match MonthFromTime t with
  | 0 => d + 1
  | 1 => d - 30
  | 2 => d - 58 - leap
  | 3 => d - 89 - leap
  | 4 => d - 119 - leap
  | 5 => d - 150 - leap
  | 6 => d - 180 - leap
  | 7 => d - 211 - leap
  | 8 => d - 242 - leap
  | 9 => d - 272 - leap
  | 10 => d - 303 - leap
  | _ => d - 333 - leap
  end.

Definition HourFromTime (t : Z) : Z := (t / 3600000) mod 24.
Definition MinFromTime (t : Z) : Z := (t / 60000) mod 60.
Definition SecFromTime (t : Z) : Z := (t / 1000) mod 60.
Definition msFromTime (t : Z) : Z := t mod 1000.

Definition digit_char (n : Z) : ascii := ascii_of_N (Z.to_N (48 + n mod 10)).

(** [n] in decimal, padded with zeros to [width] digits (the low [width]
    digits when [n] is longer). *)
Fixpoint pad (width : nat) (n : Z) (suffix : string) : string :=
  match width with
  | O => suffix
  | S w => pad w (n / 10) (String (digit_char n) suffix)
  end.

(** [toISOString]: four-digit years from 0 to 9999, otherwise a sign and
    six digits. *)
Definition iso_year (y : Z) (suffix : string) : string :=
  if (0 <=? y) && (y <=? 9999) then pad 4 y suffix
  else String (if y <? 0 then "-"%char else "+"%char) (pad 6 (Z.abs y) suffix).

Definition toISOString (t : Z) : string :=
  iso_year (YearFromTime t)
    (String "-" (pad 2 (MonthFromTime t + 1)
    (String "-" (pad 2 (DateFromTime t)
    (String "T" (pad 2 (HourFromTime t)
    (String ":" (pad 2 (MinFromTime t)
    (String ":" (pad 2 (SecFromTime t)
    (String "." (pad 3 (msFromTime t) "Z")))))))))))).

(** [s.split(sep)[0]] for a one-character separator: the text before its
    first occurrence, or all of [s]. *)
Fixpoint split_first (sep : ascii) (s : string) : string :=
  match s with
  | EmptyString => EmptyString
  | String c s' =>
      if Ascii.eqb c sep then EmptyString else String c (split_first sep s')
  end.

(** The calendar on its own terms, to state what a date string means. *)
Definition is_leap (y : Z) : bool :=
  (y mod 4 =? 0) && (negb (y mod 100 =? 0) || (y mod 400 =? 0)).

(** Month from 1 to 12. *)
Definition month_length (leap : bool) (m : Z) : Z :=
  match m with
  | 2 => if leap then 29 else 28
  | 4 | 6 | 9 | 11 => 30
  | _ => 31
  end.

Definition days_in_month (y m : Z) : Z := month_length (is_leap y) m.

Fixpoint days_before (leap : bool) (m : nat) : Z :=
  match m with
  | O => 0
  | S m' => days_before leap m' + month_length leap (Z.of_nat m)
  end.

(** Days from 1 January of year [y] to the first of month [m]. *)
Definition days_before_month (y m : Z) : Z :=
  days_before (is_leap y) (Z.to_nat (m - 1)).

(** Days since 1970-01-01 of the civil date [y]-[m]-[d], counting the
    leap days of the proleptic Gregorian calendar one year at a time. *)
Definition leap_years_before (y : Z) : Z :=
  (y - 1) / 4 - (y - 1) / 100 + (y - 1) / 400.

Definition days_from_civil (y m d : Z) : Z :=
  365 * (y - 1970) + (leap_years_before y - leap_years_before 1970)
    + days_before_month y m + (d - 1).

Definition valid_civil (y m d : Z) : Prop :=
  1 <= m <= 12 /\ 1 <= d <= days_in_month y m.

End JsDate.

Import JsDate.

(** ** The invoices table and the statements the actions send *)

Module invoices.
Record row := mkRow {
  id : string;
  customer_id : string;
  amount : number;
  status : string;
  date : string
}.
End invoices.

Abbreviation Store := (list invoices.row).

(** The three tagged templates of the module, with their parameters as the
    JavaScript values interpolated into them. *)
Inductive Statement :=
| INSERT_INTO_invoices (customer_id amount status date : JsValue)
| UPDATE_invoices (customer_id amount status id : JsValue)
| DELETE_FROM_invoices (id : JsValue).

Definition as_text (v : JsValue) : option string :=
  match v with JString s => Some s | _ => None end.

Definition as_numeric (v : JsValue) : option number :=
  match v with JNumber x => Some x | _ => None end.

(** What is known of the server beyond the statements themselves: which
    statements it refuses (connection loss, a constraint, a value the
    column type does not take) and the identifier it gives a new row. *)
Record Postgres := {
  rejects : Statement -> Store -> bool;
  new_id : Store -> string
}.

Definition set_columns (c : string) (a : number) (s : string)
    (r : invoices.row) : invoices.row :=
  invoices.mkRow (invoices.id r) c a s (invoices.date r).

(** The effect of an accepted statement on the table; [None] when a
    parameter has no value of the column's type. *)
Definition run_statement (pg : Postgres) (q : Statement) (t : Store)
  : option Store :=
  match q with
  | INSERT_INTO_invoices c a s d =>
      match as_text c, as_numeric a, as_text s, as_text d with
      | Some c, Some a, Some s, Some d =>
          Some (t ++ [invoices.mkRow (new_id pg t) c a s d])
      | _, _, _, _ => None
      end
  | UPDATE_invoices c a s i =>
      match as_text c, as_numeric a, as_text s, as_text i with
      | Some c, Some a, Some s, Some i =>
          Some (map (fun r => if String.eqb (invoices.id r) i
                              then set_columns c a s r else r) t)
      | _, _, _, _ => None
      end
  | DELETE_FROM_invoices i =>
      match as_text i with
      | Some i =>
          Some (List.filter (fun r => negb (String.eqb (invoices.id r) i)) t)
      | None => None
      end
  end.

(** ** Effects: a state-and-exception monad over the world *)

Inductive Exn :=
| Error (message : string)
| ZodError (issues : list ZodIssue)
| PostgresError (query : Statement)
| NEXT_REDIRECT (url : string).

Inductive Effect :=
| EffSql (query : Statement)
| EffConsoleError (label : string) (error : Exn)
| EffRevalidatePath (path : string).

Record World := mkWorld {
  table : Store;
  clock : Z;
  effects : list Effect
}.

Inductive Completion (A : Type) :=
| Normal (value : A)
| Throw (error : Exn).
Arguments Normal {A} value.
Arguments Throw {A} error.

Definition Action (A : Type) : Type := World -> Completion A * World.

#[global] Instance Action_ret : MRet Action :=
  fun A (a : A) w => (Normal a, w).

#[global] Instance Action_bind : MBind Action :=
  fun A B (k : A -> Action B) (m : Action A) w =>
    match m w with
    | (Normal a, w') => k a w'
    | (Throw e, w') => (Throw e, w')
    end.

Definition throw {A} (e : Exn) : Action A := fun w => (Throw e, w).

(** [try { body } catch (error) { handler }] *)
Definition try_catch {A} (body : Action A) (handler : Exn -> Action A)
  : Action A :=
  fun w =>
    match body w with
    | (Normal a, w') => (Normal a, w')
    | (Throw e, w') => handler e w'
    end.

Definition emit (e : Effect) : Action unit :=
  fun w => (Normal tt, mkWorld (table w) (clock w) (effects w ++ [e])).

(** [new Date()]: the time value of the clock, in milliseconds. *)
Definition new_Date : Action Z := fun w => (Normal (clock w), w).

Definition console_error (label : string) (error : Exn) : Action unit :=
  emit (EffConsoleError label error).

Definition revalidatePath (path : string) : Action unit :=
  emit (EffRevalidatePath path).

(** [redirect] never returns: it throws the framework's redirect error. *)
Definition redirect {A} (url : string) : Action A :=
  throw (NEXT_REDIRECT url).

Section Actions.

Variable pg : Postgres.

(** [await sql`...`]: the query reaches the server; it either changes the
    table or rejects. *)
Definition sql (q : Statement) : Action unit :=
  fun w =>
    let w1 := mkWorld (table w) (clock w) (effects w ++ [EffSql q]) in
    if rejects pg q (table w) then (Throw (PostgresError q), w1)
    else
      match run_statement pg q (table w) with
      | Some t' => (Normal tt, mkWorld t' (clock w) (effects w1))
      | None => (Throw (PostgresError q), w1)
      end.

(** *** The schema *)

Definition FormSchema : ZodObject :=
  [ ("id", ZodString no_params);
    ("customerId",
      ZodString {| invalid_type_error := Some "Please select a customer.";
                   required_error := None |});
    ("amount",
      ZodNumber true
        [check_min (of_Z 0) false "Please enter an amount greater than $0."]
        no_params);
    ("status",
      ZodEnum ["pending"; "paid"]
        {| invalid_type_error := Some "Please select an invoice status.";
           required_error := None |});
    ("date", ZodString no_params) ].

Definition CreateInvoice : ZodObject := omit ["id"; "date"] FormSchema.
Definition UpdateInvoice : ZodObject := omit ["id"; "date"] FormSchema.

Record State := mkState {
  errors : option (gmap string (list string));
  message : option string
}.

(** [schema.parse(data)]: as [safeParse], throwing on failure. *)
Definition parse (schema : ZodObject) (data : JsObject) : Action JsObject :=
  match safeParse schema data with
  | SafeParseSuccess v => mret v
  | SafeParseError issues => throw (ZodError issues)
  end.

Definition error_issues (r : SafeParseReturn) : list ZodIssue :=
  match r with SafeParseError issues => issues | SafeParseSuccess _ => [] end.

(** The object literal both actions build from the form. *)
Definition form_fields (formData : FormData) : JsObject :=
  {[ "customerId" := FormData_get "customerId" formData;
     "amount" := FormData_get "amount" formData;
     "status" := FormData_get "status" formData ]}.

(** *** The three actions *)

Definition createInvoice (prevState : State) (formData : FormData)
  : Action State :=
  let validatedFields := safeParse CreateInvoice (form_fields formData) in
  if negb (success validatedFields) then
    mret {| errors := Some (fieldErrors (error_issues validatedFields));
            message := Some "Missing Fields. Failed to Create Invoice." |}
  else
    data ← parse CreateInvoice (form_fields formData);
    let customerId := data !!! "customerId" in
    let amount := data !!! "amount" in
    let status := data !!! "status" in
    let amountInCents := js_mul amount (JNumber (of_Z 100)) in
    now ← new_Date;
    let date := JString (split_first "T" (toISOString now)) in
    try_catch
      (sql (INSERT_INTO_invoices customerId amountInCents status date))
      (fun error => console_error "Error creating invoice:" error);;
    revalidatePath "/dashboard/invoices";;
    redirect "/dashboard/invoices".

Definition updateInvoice (id : string) (prevState : State)
    (formData : FormData) : Action State :=
  let validatedFields := safeParse UpdateInvoice (form_fields formData) in
  if negb (success validatedFields) then
    mret {| errors := Some (fieldErrors (error_issues validatedFields));
            message := Some "Missing Fields. Failed to Update Invoice." |}
  else
    data ← parse UpdateInvoice (form_fields formData);
    let customerId := data !!! "customerId" in
    let amount := data !!! "amount" in
    let status := data !!! "status" in
    let amountInCents := js_mul amount (JNumber (of_Z 100)) in
    try_catch
      (sql (UPDATE_invoices customerId amountInCents status (JString id)))
      (fun error => console_error "Error updating invoice:" error);;
    revalidatePath "/dashboard/invoices";;
    redirect "/dashboard/invoices".

Definition deleteInvoice (id : string) : Action unit :=
  (throw (Error "Failed to Delete Invoice") : Action unit);;
  sql (DELETE_FROM_invoices (JString id));;
  revalidatePath "/dashboard/invoices".

End Actions.

(** * Vocabulary of the statements *)

(** ** Validators and object schemas *)

(** The issues a validator raises for a value, from an empty context. *)
Definition own_issues (t : ZodType) (path : list string) (v : JsValue)
  : list ZodIssue :=
  snd (_parse t path v []).

Definition is_OK {A} (r : ParseReturn A) : bool :=
  match r with OK _ => true | _ => false end.

Definition field_issues (data : JsObject) (kv : string * ZodType)
  : list ZodIssue :=
  own_issues (snd kv) [fst kv] (data !!! fst kv).

(** The issues of an object: those of its fields, in shape order. *)
Definition object_issues (shape : ZodObject) (data : JsObject)
  : list ZodIssue :=
  concat (map (field_issues data) shape).

Definition field_result (data : JsObject) (kv : string * ZodType)
  : string * ParseReturn JsValue :=
  (fst kv, fst (_parse (snd kv) [fst kv] (data !!! fst kv) [])).

Definition at_key (key : string) (i : ZodIssue) : bool :=
  match issue_path i with
  | k :: _ => String.eqb k key
  | [] => false
  end.

(** The messages of the issues whose path starts with [key]. *)
Definition messages_at (key : string) (issues : list ZodIssue)
  : list string :=
  map issue_message (List.filter (at_key key) issues).

(** A group of messages as [fieldErrors] shows it: absent when empty. *)
Definition group (msgs : list string) : option (list string) :=
  match msgs with [] => None | _ => Some msgs end.

Fixpoint shape_get (key : string) (shape : ZodObject) : option ZodType :=
  match shape with
  | [] => None
  | (k, t) :: shape' =>
      if String.eqb k key then Some t else shape_get key shape'
  end.

(** What the validator of field [key] says about the object, alone. *)
Definition field_messages (shape : ZodObject) (key : string)
    (data : JsObject) : list string :=
  match shape_get key shape with
  | Some t => map issue_message (own_issues t [key] (data !!! key))
  | None => []
  end.

(** ** The messages of the invoice schema *)

Definition msg_customer : string := "Please select a customer.".
Definition msg_amount : string := "Please enter an amount greater than $0.".
Definition msg_status : string := "Please select an invoice status.".
Definition msg_nan : string := "Expected number, received nan".
Definition msg_enum (received : string) : string :=
  "Invalid enum value. Expected 'pending' | 'paid', received '"
    +:+ received +:+ "'".

(** The entry of [errors] for each field, as a function of the value the
    form holds for it. *)
Definition customerId_errors (v : JsValue) : option (list string) :=
  match v with
  | JString _ => None
  | _ => Some [msg_customer]
  end.

Definition amount_errors (v : JsValue) : option (list string) :=
  let x := ToNumber v in
  if is_nan x then Some [msg_nan]
  else if le x (of_Z 0) then Some [msg_amount]
  else None.

Definition status_errors (v : JsValue) : option (list string) :=
  match v with
  | JString s =>
      if string_in s ["pending"; "paid"] then None else Some [msg_enum s]
  | _ => Some [msg_status]
  end.

Definition create_failure (E : gmap string (list string)) : State :=
  {| errors := Some E;
     message := Some "Missing Fields. Failed to Create Invoice." |}.

Definition update_failure (E : gmap string (list string)) : State :=
  {| errors := Some E;
     message := Some "Missing Fields. Failed to Update Invoice." |}.

(** The errors both actions return for a form, when they return any. *)
Definition form_errors (fd : FormData) : gmap string (list string) :=
  fieldErrors (error_issues (safeParse CreateInvoice (form_fields fd))).

(** The entry of [errors] under [key] in what an action returned. *)
Definition returned_errors (r : Completion State * World) (key : string)
  : option (list string) :=
  match fst r with
  | Normal st =>
      match errors st with
      | Some E => E !! key
      | None => None
      end
  | Throw _ => None
  end.

(** ** Valid forms and the statements they lead to *)

(** The form passes: a customer string, an amount above zero, a status
    out of the enumeration. *)
Definition validated (fd : FormData) (c : string) (x : number) (s : string)
  : Prop :=
  FormData_get "customerId" fd = JString c /\
  ToNumber (FormData_get "amount" fd) = x /\
  gt x (of_Z 0) = true /\
  FormData_get "status" fd = JString s /\
  (s = "pending" \/ s = "paid").

Definition listing : string := "/dashboard/invoices".

(** The world after [try { await sql(q) } catch (e) { console.error(label, e) }]
    followed by [revalidatePath]. *)
Definition after_query (pg : Postgres) (label : string) (q : Statement)
    (w : World) : World :=
  let failed :=
    mkWorld (table w) (clock w)
      (effects w ++ [EffSql q; EffConsoleError label (PostgresError q);
                     EffRevalidatePath listing]) in
  if rejects pg q (table w) then failed
  else
    match run_statement pg q (table w) with
    | Some t' =>
        mkWorld t' (clock w)
          (effects w ++ [EffSql q; EffRevalidatePath listing])
    | None => failed
    end.

Definition insert_query (c : string) (x : number) (s : string) (now : Z)
  : Statement :=
  INSERT_INTO_invoices (JString c) (JNumber (mul x (of_Z 100))) (JString s)
    (JString (split_first "T" (toISOString now))).

Definition update_query (c : string) (x : number) (s : string) (id : string)
  : Statement :=
  UPDATE_invoices (JString c) (JNumber (mul x (of_Z 100))) (JString s)
    (JString id).

(** ** Dates *)

(** The part of the ISO string before its [T]. *)
Definition iso_date (t : Z) : string :=
  iso_year (YearFromTime t)
    (String "-" (pad 2 (MonthFromTime t + 1)
    (String "-" (pad 2 (DateFromTime t) EmptyString)))).

(** Time values of the years 0 to 9999: from 0000-01-01T00:00:00.000Z up
    to, not including, +010000-01-01T00:00:00.000Z. *)
Definition four_digit_years (t : Z) : Prop :=
  - 62167219200000 <= t < 253402300800000.

(** ** Sample worlds *)

Definition pg_up : Postgres :=
  {| rejects := fun _ _ => false; new_id := fun _ => "inv-new" |}.

Definition pg_down : Postgres :=
  {| rejects := fun _ _ => true; new_id := fun _ => "inv-new" |}.

(** One invoice, and the clock at 2026-11-01T17:54:56.789Z. *)
Definition sample_world : World :=
  mkWorld [invoices.mkRow "inv1" "c1" (of_Z 10000) "pending" "2024-05-17"]
    1793555696789 [].

Definition no_state : State := {| errors := None; message := None |}.

Definition form (customerId amount status : string) : FormData :=
  [ ("customerId", EntryString customerId);
    ("amount", EntryString amount);
    ("status", EntryString status) ].

(** ** The edit page (app/dashboard/invoices/[id]/edit/page.tsx) *)

Module EditPage.

Section Page.

(** The row types of the data layer, which the page only passes on. *)
Variables InvoiceForm CustomerField : Type.

(** How a promise ends. *)
Inductive Settled (A : Type) :=
| Fulfilled (value : A)
| Rejected (reason : string).
Arguments Fulfilled {A} value.
Arguments Rejected {A} reason.

(** [Promise.all([p, q])]: both values, or the reason of the promise that
    rejected first; when both reject, which one was first is up to the
    run ([second_first]). *)
Definition Promise_all {A B : Type} (second_first : bool)
    (p : Settled A) (q : Settled B) : Settled (A * B) :=
  match p, q with
  | Fulfilled a, Fulfilled b => Fulfilled (a, b)
  | Rejected e, Fulfilled _ => Rejected e
  | Fulfilled _, Rejected e => Rejected e
  | Rejected e1, Rejected e2 => Rejected (if second_first then e2 else e1)
  end.

(** One item of the trail; [active] is a property the first item does
    not have. *)
Record Breadcrumb := mkBreadcrumb {
  label : string;
  href : string;
  active : option bool
}.

(** The elements the page builds. *)
#[warnings="-register-all"]
Inductive Element :=
| main (children : list Element)
| Breadcrumbs (breadcrumbs : list Breadcrumb)
| Form (invoice : InvoiceForm) (customers : list CustomerField).

(** How the component ends: with its tree, with the not-found signal that
    [notFound()] throws, or with the rejection of a fetch. *)
Inductive Outcome :=
| Returned (tree : Element)
| NEXT_NOT_FOUND
| Thrown (reason : string).

(** The template literal of the active item. *)
Definition edit_href (id : string) : string :=
  "/dashboard/invoices/" +:+ id +:+ "/edit".

(** The two fetchers of the data layer, as what their promises settle to. *)
Variable fetchInvoiceById : string -> Settled (option InvoiceForm).
Variable fetchCustomers : Settled (list CustomerField).

(** [Page], with [id] the value [props.params] resolves to. *)
Definition Page (second_first : bool) (id : string) : Outcome :=
  match Promise_all second_first (fetchInvoiceById id) fetchCustomers with
  | Rejected reason => Thrown reason
  | Fulfilled (invoice, customers) =>
      match invoice with
      | None => NEXT_NOT_FOUND
      | Some invoice =>
          Returned
            (main
               [ Breadcrumbs
                   [ mkBreadcrumb "Invoices" "/dashboard/invoices" None;
                     mkBreadcrumb "Edit Invoice" (edit_href id) (Some true) ];
                 Form invoice customers ])
      end
  end.

End Page.

Arguments Fulfilled {A} value.
Arguments Rejected {A} reason.
Arguments main {InvoiceForm CustomerField} children.
Arguments Breadcrumbs {InvoiceForm CustomerField} breadcrumbs.
Arguments Form {InvoiceForm CustomerField} invoice customers.
Arguments Returned {InvoiceForm CustomerField} tree.
Arguments NEXT_NOT_FOUND {InvoiceForm CustomerField}.
Arguments Thrown {InvoiceForm CustomerField} reason.
Arguments Page {InvoiceForm CustomerField} fetchInvoiceById fetchCustomers
  second_first id.

(** The items of the trail that are shown as active. *)
Definition active_items (bs : list Breadcrumb) : list Breadcrumb :=
  List.filter (fun b => match active b with Some true => true | _ => false end)
    bs.

End EditPage.

(** ** More vocabulary *)

(** TAB, LF, VT, FF, CR and SP. *)
Definition ascii_blank (c : Z) : bool :=
  existsb (Z.eqb c) [9; 10; 11; 12; 13; 32].

(** A string of blanks only, the empty string included. *)
Definition blank (s : string) : bool := forallb ascii_blank (codes s).

(** A server that accepts every statement. *)
Definition accepts_all (pg : Postgres) : Prop :=
  forall q t, rejects pg q t = false.

(** The table as [updateInvoice] leaves it when the statement is accepted. *)
Definition updated (c : string) (x : number) (s : string) (id : string)
    (t : Store) : Store :=
  map (fun r => if String.eqb (invoices.id r) id
                then set_columns c (mul x (of_Z 100)) s r else r) t.

(** A Number of the given sign: a zero, a finite Number or an infinity,
    not NaN. *)
Definition signed (sx : bool) (x : number) : Prop :=
  match x with
  | S754_zero s | S754_infinity s | S754_finite s _ _ => s = sx
  | S754_nan => False
  end.

(** * Properties *)

(** ** Trimming: the fuel is enough *)

Section TrimFacts.

Lemma strip_prefix_length p :
  forall l r, strip_prefix p l = Some r ->
              length l = (length p + length r)%nat.
Proof.
  induction p as [|a p IH]; intros l r; cbn.
  - by intros [= ->].
  - destruct l as [|b l]; [done|].
    destruct (a =? b); [|done]. intros H. apply IH in H. cbn. lia.
Qed.

Lemma strip_any_shorter ps :
  Forall (fun p => p <> []) ps ->
  forall l r, strip_any ps l = Some r -> (length r < length l)%nat.
Proof.
  induction 1 as [|p ps Hp _ IH]; intros l r; cbn; [done|].
  destruct (strip_prefix p l) as [r'|] eqn:E.
  - intros [= ->]. apply strip_prefix_length in E.
    destruct p; [done|]. cbn in E. lia.
  - apply IH.
Qed.

Lemma strip_any_nil ps :
  Forall (fun p => p <> []) ps -> strip_any ps [] = None.
Proof.
  induction 1 as [|p ps Hp _ IH]; cbn; [done|]. by destruct p.
Qed.

(** With fuel for every code unit, what is left starts with no pattern. *)
Lemma trim_start_fuel_done ps :
  Forall (fun p => p <> []) ps ->
  forall fuel l, (length l <= fuel)%nat ->
                 strip_any ps (trim_start_fuel fuel ps l) = None.
Proof.
  intros Hps. induction fuel as [|fuel IH]; intros l Hl; cbn.
  - destruct l; [|cbn in Hl; lia]. by apply strip_any_nil.
  - destruct (strip_any ps l) as [r|] eqn:E; [|done].
    apply IH. apply (strip_any_shorter ps Hps) in E. lia.
Qed.

Lemma white_space_nonempty : Forall (fun p => p <> []) white_space.
Proof. unfold white_space. repeat constructor; discriminate. Qed.

(** A trimmed string starts with no white space. *)
Lemma trim_start_done l : strip_any white_space (trim_start l) = None.
Proof.
  apply trim_start_fuel_done; [apply white_space_nonempty | done].
Qed.

End TrimFacts.

(** ** The parsers, one field at a time *)

Section ZodFacts.

Lemma run_checks_app params path x checks :
  forall dirty ctx,
    run_checks params path x checks dirty ctx =
    (fst (run_checks params path x checks dirty []),
     ctx ++ snd (run_checks params path x checks dirty [])).
Proof.
  induction checks as [|[value inclusive msg] rest IH]; intros dirty ctx.
  - cbn. by rewrite app_nil_r.
  - cbn [run_checks].
    destruct (if inclusive then gt value x else le x value).
    + rewrite IH. rewrite (IH true (addIssueToContext [] _)).
      cbn [fst snd]. unfold addIssueToContext.
      by rewrite <- app_assoc.
    + apply IH.
Qed.

Lemma run_checks_dirty params path x checks :
  forall ctx, fst (run_checks params path x checks true ctx) = true.
Proof.
  induction checks as [|[value inclusive msg] rest IH]; intros ctx; cbn.
  - done.
  - destruct (if inclusive then gt value x else le x value); apply IH.
Qed.

(** The checks leave the status clean exactly when they add no issue. *)
Lemma run_checks_clean params path x checks :
  fst (run_checks params path x checks false []) = false <->
  snd (run_checks params path x checks false []) = [].
Proof.
  induction checks as [|[value inclusive msg] rest IH]; cbn.
  - done.
  - destruct (if inclusive then gt value x else le x value).
    + rewrite run_checks_app. cbn [fst snd].
      rewrite run_checks_dirty. split; [done|].
      unfold addIssueToContext. cbn. done.
    + apply IH.
Qed.

Lemma run_checks_path params path x checks :
  forall dirty,
    Forall (fun i => issue_path i = path)
      (snd (run_checks params path x checks dirty [])).
Proof.
  induction checks as [|[value inclusive msg] rest IH]; intros dirty; cbn.
  - constructor.
  - destruct (if inclusive then gt value x else le x value).
    + rewrite run_checks_app. cbn [snd]. apply Forall_app. split.
      * unfold addIssueToContext. cbn. repeat constructor.
      * apply IH.
    + apply IH.
Qed.

(** A validator only appends to the context, and its result does not
    depend on what the context held. *)
Lemma _parse_app t path v ctx :
  _parse t path v ctx =
  (fst (_parse t path v []), ctx ++ own_issues t path v).
Proof.
  unfold own_issues.
  destruct t as [params | coerce checks params | values params]; cbn.
  - destruct v; cbn; by rewrite ?app_nil_r.
  - destruct (if coerce then JNumber (ToNumber v) else v) as [| |s|x|n];
      cbn; rewrite ?app_nil_r; try done.
    destruct (is_nan x); cbn; [done|].
    rewrite run_checks_app.
    destruct (run_checks params path x checks false []) as [d c]. done.
  - destruct v as [| |s|x|n]; cbn; rewrite ?app_nil_r; try done.
    destruct (string_in s values); cbn; by rewrite ?app_nil_r.
Qed.

(** Every issue of a validator carries the path it was called with. *)
Lemma own_issues_path t path v :
  Forall (fun i => issue_path i = path) (own_issues t path v).
Proof.
  unfold own_issues.
  destruct t as [params | coerce checks params | values params]; cbn.
  - destruct v; cbn; repeat constructor.
  - destruct (if coerce then JNumber (ToNumber v) else v) as [| |s|x|n];
      cbn; try (repeat constructor).
    destruct (is_nan x); cbn; [repeat constructor|].
    pose proof (run_checks_path params path x checks false) as H.
    destruct (run_checks params path x checks false []) as [d c]. done.
  - destruct v as [| |s|x|n]; cbn; try (repeat constructor).
    destruct (string_in s values); cbn; repeat constructor.
Qed.

(** A validator answers [OK] exactly when it raised no issue. *)
Lemma _parse_OK_iff t path v :
  is_OK (fst (_parse t path v [])) = true <-> own_issues t path v = [].
Proof.
  unfold own_issues.
  destruct t as [params | coerce checks params | values params]; cbn.
  - destruct v; cbn; split; done.
  - destruct (if coerce then JNumber (ToNumber v) else v) as [| |s|x|n];
      cbn; try (split; done).
    destruct (is_nan x); cbn; [split; done|].
    pose proof (run_checks_clean params path x checks) as H.
    destruct (run_checks params path x checks false []) as [d c].
    cbn in *. destruct d; cbn; split; intros; try done.
    + apply H in H0. done.
    + by apply H.
  - destruct v as [| |s|x|n]; cbn; try (split; done).
    destruct (string_in s values); cbn; split; done.
Qed.

End ZodFacts.

(** ** Object schemas: every field is parsed, every issue is kept *)

Section ObjectFacts.

Lemma parse_pairs_spec shape data :
  forall ctx,
    parse_pairs shape data ctx =
    (map (field_result data) shape, ctx ++ object_issues shape data).
Proof.
  induction shape as [|[key t] shape IH]; intros ctx; cbn.
  - by rewrite app_nil_r.
  - rewrite _parse_app, IH. cbn.
    unfold object_issues, field_issues, field_result. cbn.
    by rewrite <- app_assoc.
Qed.

Lemma mergeObjectSync_OK pairs :
  forall dirty obj,
    is_OK (mergeObjectSync pairs dirty obj) =
    negb dirty && forallb (fun p => is_OK (snd p)) pairs.
Proof.
  induction pairs as [|[key r] pairs IH]; intros dirty obj; cbn.
  - by destruct dirty.
  - destruct r as [|v|v]; cbn.
    + by rewrite andb_false_r.
    + rewrite IH. cbn. by rewrite andb_false_r.
    + by rewrite IH.
Qed.

Lemma object_issues_nil shape data :
  object_issues shape data = [] <->
  forallb (fun p => is_OK (snd p)) (map (field_result data) shape) = true.
Proof.
  induction shape as [|[key t] shape IH]; cbn; [done|].
  unfold object_issues in *. cbn.
  rewrite andb_true_iff, <- IH, _parse_OK_iff.
  unfold field_issues at 1. cbn.
  split.
  - intros H. by apply app_eq_nil in H.
  - intros [-> ->]. done.
Qed.

(** [safeParse] succeeds exactly when no field raised an issue, and on
    failure it reports the issues of all the fields. *)
Lemma safeParse_success_iff shape data :
  success (safeParse shape data) = true <-> object_issues shape data = [].
Proof.
  unfold safeParse, object_parse. rewrite parse_pairs_spec. cbn [app].
  rewrite object_issues_nil, <- (andb_true_l (forallb _ _)).
  change true with (negb false) at 2.
  rewrite <- (mergeObjectSync_OK _ false ∅).
  destruct (mergeObjectSync _ false ∅); cbn; split; done.
Qed.

Lemma safeParse_error_issues shape data :
  success (safeParse shape data) = false ->
  safeParse shape data = SafeParseError (object_issues shape data).
Proof.
  unfold safeParse, object_parse. rewrite parse_pairs_spec. cbn [app].
  destruct (mergeObjectSync _ false ∅); cbn; done.
Qed.

(** *** [flatten] *)

Lemma fieldErrors_snoc issues i :
  fieldErrors (issues ++ [i]) = flatten_step (fieldErrors issues) i.
Proof. unfold fieldErrors. by rewrite fold_left_app. Qed.

Lemma messages_at_app key l1 l2 :
  messages_at key (l1 ++ l2) = messages_at key l1 ++ messages_at key l2.
Proof. unfold messages_at. by rewrite List.filter_app, map_app. Qed.

(** [fieldErrors] holds, under each key, all the messages raised for that
    key, in order, and nothing under a key without issues. *)
Lemma fieldErrors_lookup issues key :
  fieldErrors issues !! key = group (messages_at key issues).
Proof.
  induction issues as [|i issues IH] using rev_ind.
  - apply lookup_empty.
  - rewrite fieldErrors_snoc, messages_at_app.
    unfold flatten_step, messages_at at 2, at_key. cbn.
    destruct (issue_path i) as [|k rest]; cbn.
    + by rewrite app_nil_r.
    + destruct (String.eqb_spec k key) as [->|Hne]; cbn.
      * rewrite lookup_insert_eq, IH.
        destruct (messages_at key issues); done.
      * rewrite lookup_insert_ne, app_nil_r by done. done.
Qed.

(** *** Both together *)

Lemma messages_at_own key k t v :
  messages_at key (own_issues t [k] v) =
  if String.eqb k key then map issue_message (own_issues t [k] v) else [].
Proof.
  unfold messages_at.
  pose proof (own_issues_path t [k] v) as H.
  induction H as [|i l Hi _ IH]; cbn.
  - by destruct (String.eqb k key).
  - unfold at_key at 1. rewrite Hi.
    destruct (String.eqb k key); cbn; by rewrite IH.
Qed.

Lemma object_issues_cons kv shape data :
  object_issues (kv :: shape) data =
  field_issues data kv ++ object_issues shape data.
Proof. reflexivity. Qed.

Lemma messages_at_absent key shape data :
  shape_get key shape = None ->
  messages_at key (object_issues shape data) = [].
Proof.
  induction shape as [|[k t] shape IH]; cbn [shape_get]; [done|].
  destruct (String.eqb k key) eqn:E; [done|]. intros H.
  rewrite object_issues_cons, messages_at_app, IH by done.
  unfold field_issues. cbn [fst snd]. rewrite messages_at_own, E. done.
Qed.

Lemma messages_at_object key shape data :
  NoDup (map fst shape) ->
  messages_at key (object_issues shape data) = field_messages shape key data.
Proof.
  unfold field_messages.
  induction shape as [|[k t] shape IH]; cbn [shape_get map fst]; [done|].
  intros Hnd. apply NoDup_cons in Hnd as [Hk Hnd].
  rewrite object_issues_cons, messages_at_app.
  unfold field_issues at 1. cbn [fst snd].
  rewrite messages_at_own.
  destruct (String.eqb_spec k key) as [->|Hne].
  - rewrite messages_at_absent, app_nil_r; [done|].
    clear -Hk. induction shape as [|[k' t'] shape IH]; cbn; [done|].
    destruct (String.eqb_spec k' key) as [->|Hne].
    + exfalso. apply Hk. cbn. left.
    + apply IH. intros H. apply Hk. cbn. by right.
  - cbn. by apply IH.
Qed.

(** On failure, the flattened errors of an object schema with distinct
    keys show, for every key, what that key's validator alone reports. *)
Lemma fieldErrors_object shape data key :
  NoDup (map fst shape) ->
  fieldErrors (object_issues shape data) !! key =
  group (field_messages shape key data).
Proof.
  intros Hnd. by rewrite fieldErrors_lookup, messages_at_object.
Qed.

End ObjectFacts.

(** ** The invoice schema *)

Section SchemaFacts.

(** [omit] leaves the three form fields, in the order of [FormSchema]. *)
Lemma CreateInvoice_shape :
  CreateInvoice =
  [ ("customerId",
      ZodString {| invalid_type_error := Some msg_customer;
                   required_error := None |});
    ("amount",
      ZodNumber true [check_min (of_Z 0) false msg_amount] no_params);
    ("status",
      ZodEnum ["pending"; "paid"]
        {| invalid_type_error := Some msg_status;
           required_error := None |}) ].
Proof. reflexivity. Qed.

Lemma UpdateInvoice_CreateInvoice : UpdateInvoice = CreateInvoice.
Proof. reflexivity. Qed.

Lemma CreateInvoice_NoDup : NoDup (map fst CreateInvoice).
Proof. by apply (bool_decide_unpack (NoDup _)). Qed.

Lemma form_fields_customerId fd :
  form_fields fd !!! "customerId" = FormData_get "customerId" fd.
Proof. reflexivity. Qed.

Lemma form_fields_amount fd :
  form_fields fd !!! "amount" = FormData_get "amount" fd.
Proof. reflexivity. Qed.

Lemma form_fields_status fd :
  form_fields fd !!! "status" = FormData_get "status" fd.
Proof. reflexivity. Qed.

(** A form lookup gives a string, a file or [null], never [undefined]. *)
Lemma FormData_get_defined name fd : FormData_get name fd <> JUndefined.
Proof.
  induction fd as [|[k e] fd IH]; cbn; [done|].
  destruct (String.eqb k name); [by destruct e | done].
Qed.

(** With no entry of that name, the lookup gives [null]. *)
Lemma FormData_get_absent name fd :
  ~ In name (map fst fd) -> FormData_get name fd = JNull.
Proof.
  induction fd as [|[k e] fd IH]; cbn; [done|]. intros H.
  destruct (String.eqb_spec k name) as [->|Hne].
  - exfalso. apply H. by left.
  - apply IH. intros Hin. apply H. by right.
Qed.

(** What each validator of the schema reports for the form. *)
Lemma customerId_messages fd :
  field_messages CreateInvoice "customerId" (form_fields fd) =
  match FormData_get "customerId" fd with
  | JString _ => []
  | _ => [msg_customer]
  end.
Proof.
  unfold field_messages. cbn [CreateInvoice shape_get].
  change (shape_get "customerId" CreateInvoice) with
    (Some (ZodString {| invalid_type_error := Some msg_customer;
                        required_error := None |})).
  rewrite form_fields_customerId.
  pose proof (FormData_get_defined "customerId" fd) as Hd.
  destruct (FormData_get "customerId" fd); done.
Qed.

Lemma amount_messages fd :
  field_messages CreateInvoice "amount" (form_fields fd) =
  let x := ToNumber (FormData_get "amount" fd) in
  if is_nan x then [msg_nan]
  else if le x (of_Z 0) then [msg_amount]
  else [].
Proof.
  unfold field_messages.
  change (shape_get "amount" CreateInvoice) with
    (Some (ZodNumber true [check_min (of_Z 0) false msg_amount] no_params)).
  rewrite form_fields_amount.
  unfold own_issues, _parse. cbn zeta.
  destruct (is_nan (ToNumber (FormData_get "amount" fd))); [done|].
  unfold run_checks.
  destruct (le (ToNumber (FormData_get "amount" fd)) (of_Z 0)); done.
Qed.

Lemma status_messages fd :
  field_messages CreateInvoice "status" (form_fields fd) =
  match FormData_get "status" fd with
  | JString s => if string_in s ["pending"; "paid"] then [] else [msg_enum s]
  | _ => [msg_status]
  end.
Proof.
  unfold field_messages.
  change (shape_get "status" CreateInvoice) with
    (Some (ZodEnum ["pending"; "paid"]
             {| invalid_type_error := Some msg_status;
                required_error := None |})).
  rewrite form_fields_status.
  pose proof (FormData_get_defined "status" fd) as Hd.
  unfold own_issues, _parse.
  destruct (FormData_get "status" fd) as [| |s| |]; try done.
  destruct (string_in s ["pending"; "paid"]); done.
Qed.

Lemma other_messages key fd :
  key <> "customerId" -> key <> "amount" -> key <> "status" ->
  field_messages CreateInvoice key (form_fields fd) = [].
Proof.
  intros H1 H2 H3. unfold field_messages.
  rewrite CreateInvoice_shape. cbn [shape_get].
  destruct (String.eqb_spec "customerId" key); [congruence|].
  destruct (String.eqb_spec "amount" key); [congruence|].
  destruct (String.eqb_spec "status" key); [congruence|]. done.
Qed.

End SchemaFacts.

(** ** Validation outcomes of the form *)

Section Validation.

Lemma gt_zero_iff x :
  gt x (of_Z 0) = true <-> is_nan x = false /\ le x (of_Z 0) = false.
Proof.
  destruct x as [[]|[]| |[] m e]; cbn; split; try done; intros []; done.
Qed.

Lemma string_in_status s :
  string_in s ["pending"; "paid"] = true <-> s = "pending" \/ s = "paid".
Proof.
  unfold string_in. cbn.
  destruct (String.eqb_spec s "pending"), (String.eqb_spec s "paid");
    cbn; split; try done; try tauto; intros []; done.
Qed.

Lemma messages_of_success key fd :
  success (safeParse CreateInvoice (form_fields fd)) = true ->
  field_messages CreateInvoice key (form_fields fd) = [].
Proof.
  intros H. apply safeParse_success_iff in H.
  rewrite <- messages_at_object by apply CreateInvoice_NoDup.
  by rewrite H.
Qed.

Lemma validated_of_success fd :
  success (safeParse CreateInvoice (form_fields fd)) = true ->
  exists c x s, validated fd c x s.
Proof.
  intros H.
  pose proof (messages_of_success "customerId" fd H) as Hc.
  pose proof (messages_of_success "amount" fd H) as Ha.
  pose proof (messages_of_success "status" fd H) as Hs.
  rewrite customerId_messages in Hc.
  rewrite amount_messages in Ha. cbn zeta in Ha.
  rewrite status_messages in Hs.
  destruct (FormData_get "customerId" fd) as [| |c| |] eqn:Ec; try done.
  destruct (FormData_get "status" fd) as [| |s| |] eqn:Es; try done.
  exists c, (ToNumber (FormData_get "amount" fd)), s.
  unfold validated. rewrite Ec. repeat split; try done.
  - apply gt_zero_iff.
    destruct (is_nan _); [done|]. destruct (le _ _); done.
  - apply string_in_status.
    destruct (string_in s ["pending"; "paid"]); done.
Qed.

(** On success the parsed object holds the customer and status as they
    came and the amount as a Number. *)
Lemma safeParse_validated fd c x s :
  validated fd c x s ->
  safeParse CreateInvoice (form_fields fd) =
  SafeParseSuccess
    {[ "customerId" := JString c; "amount" := JNumber x;
       "status" := JString s ]}.
Proof.
  intros (Hc & Hx & Hgt & Hs & Hin).
  apply gt_zero_iff in Hgt as [Hnan Hle].
  apply string_in_status in Hin.
  unfold safeParse, object_parse.
  rewrite parse_pairs_spec, CreateInvoice_shape.
  cbn [map]. unfold field_result. cbn [fst snd].
  rewrite form_fields_customerId, form_fields_amount, form_fields_status.
  rewrite Hc, Hs.
  unfold _parse at 1 2 3. rewrite Hx, Hnan, Hin.
  unfold run_checks. rewrite Hle.
  reflexivity.
Qed.

Lemma success_iff_validated fd :
  success (safeParse CreateInvoice (form_fields fd)) = true <->
  exists c x s, validated fd c x s.
Proof.
  split; [apply validated_of_success|].
  intros (c & x & s & H). by rewrite (safeParse_validated _ _ _ _ H).
Qed.

(** The form of the specification's example passes. *)
Lemma validated_sample :
  validated (form "c1" "12.50" "pending") "c1" (StringToNumber "12.50")
    "pending".
Proof. unfold validated. repeat split; try reflexivity. by left. Defined.

(** On failure, what the caller finds under each key of [errors]. *)
Lemma failure_errors fd key :
  success (safeParse CreateInvoice (form_fields fd)) = false ->
  fieldErrors (error_issues (safeParse CreateInvoice (form_fields fd)))
    !! key =
  group (field_messages CreateInvoice key (form_fields fd)).
Proof.
  intros H. rewrite (safeParse_error_issues _ _ H). cbn [error_issues].
  apply fieldErrors_object, CreateInvoice_NoDup.
Qed.

End Validation.

(** ** The two paths of [createInvoice] and [updateInvoice] *)

Section ActionPaths.

Variable pg : Postgres.

Lemma guarded_query label q w :
  (try_catch (sql pg q) (fun error => console_error label error);;
   revalidatePath listing;;
   redirect listing) w =
  (Throw (A := State) (NEXT_REDIRECT listing), after_query pg label q w).
Proof.
  unfold after_query, mbind, Action_bind, try_catch, sql, console_error,
    revalidatePath, redirect, throw, emit.
  destruct (rejects pg q (table w)); cbn.
  - by rewrite <- !app_assoc.
  - destruct (run_statement pg q (table w)); cbn; by rewrite <- !app_assoc.
Qed.

Lemma createInvoice_invalid st fd w :
  success (safeParse CreateInvoice (form_fields fd)) = false ->
  createInvoice pg st fd w =
  (Normal
     {| errors :=
          Some (fieldErrors
                  (error_issues (safeParse CreateInvoice (form_fields fd))));
        message := Some "Missing Fields. Failed to Create Invoice." |},
   w).
Proof. intros H. unfold createInvoice. by rewrite H. Qed.

Lemma updateInvoice_invalid id st fd w :
  success (safeParse UpdateInvoice (form_fields fd)) = false ->
  updateInvoice pg id st fd w =
  (Normal
     {| errors :=
          Some (fieldErrors
                  (error_issues (safeParse UpdateInvoice (form_fields fd))));
        message := Some "Missing Fields. Failed to Update Invoice." |},
   w).
Proof. intros H. unfold updateInvoice. by rewrite H. Qed.

Lemma createInvoice_valid st fd w c x s :
  validated fd c x s ->
  createInvoice pg st fd w =
  (Throw (NEXT_REDIRECT listing),
   after_query pg "Error creating invoice:" (insert_query c x s (clock w)) w).
Proof.
  intros H. unfold createInvoice, parse.
  rewrite (safeParse_validated _ _ _ _ H). cbn [success negb].
  rewrite <- guarded_query. reflexivity.
Qed.

Lemma updateInvoice_valid id st fd w c x s :
  validated fd c x s ->
  updateInvoice pg id st fd w =
  (Throw (NEXT_REDIRECT listing),
   after_query pg "Error updating invoice:" (update_query c x s id) w).
Proof.
  intros H. unfold updateInvoice, parse. rewrite UpdateInvoice_CreateInvoice.
  rewrite (safeParse_validated _ _ _ _ H). cbn [success negb].
  rewrite <- guarded_query. reflexivity.
Qed.

(** Reading a mapped list at an index. *)
Lemma lookup_map {A B : Type} (f : A -> B) (l : list A) (i : nat) :
  map f l !! i = f <$> (l !! i).
Proof. revert i. induction l as [|a l IH]; intros [|i]; cbn; auto. Qed.

(** After validation the statement is well typed for the table, so only
    the server can make it fail. *)
Lemma run_insert c x s now t :
  run_statement pg (insert_query c x s now) t =
  Some (t ++ [invoices.mkRow (new_id pg t) c (mul x (of_Z 100)) s
                (split_first "T" (toISOString now))]).
Proof. reflexivity. Qed.

Lemma run_update c x s id t :
  run_statement pg (update_query c x s id) t =
  Some (map (fun r => if String.eqb (invoices.id r) id
                      then set_columns c (mul x (of_Z 100)) s r else r) t).
Proof. reflexivity. Qed.

End ActionPaths.

(** ** The date string *)

Section DateFacts.

Lemma YearFromDay_spec d :
  DayFromYear (YearFromDay d) <= d < DayFromYear (YearFromDay d + 1).
Proof.
  unfold YearFromDay.
  destruct (Z.ltb_spec d (DayFromYear (1970 + 400 * d / 146097))) as [H1|H1].
  - split.
    + clear H1. unfold DayFromYear. Z.div_mod_to_equations. lia.
    + by replace (1970 + 400 * d / 146097 - 1 + 1)
        with (1970 + 400 * d / 146097) by lia.
  - destruct (Z.leb_spec (DayFromYear (1970 + 400 * d / 146097 + 1)) d)
      as [H2|H2]; [|done].
    split; [done|]. clear H1 H2.
    unfold DayFromYear. Z.div_mod_to_equations. lia.
Qed.

(** [YearFromDay] is the year ECMAScript asks for: no later year starts
    on or before the day. *)
Lemma YearFromDay_largest d y :
  DayFromYear y <= d -> y <= YearFromDay d.
Proof.
  intros H. pose proof (YearFromDay_spec d) as [_ Hlt].
  destruct (Z.le_gt_cases y (YearFromDay d)) as [|Hgt]; [done|].
  exfalso. revert H Hlt Hgt. generalize (YearFromDay d). intros y0.
  unfold DayFromYear. intros. Z.div_mod_to_equations. lia.
Qed.

Lemma DayFromYear_succ y :
  DayFromYear (y + 1) = DayFromYear y + DaysInYear y.
Proof.
  unfold DayFromYear, DaysInYear.
  destruct (Z.eqb_spec (y mod 4) 0), (Z.eqb_spec (y mod 100) 0),
    (Z.eqb_spec (y mod 400) 0); cbn [negb]; Z.div_mod_to_equations; lia.
Qed.

Lemma DayFromYear_leap_years y :
  DayFromYear y =
  365 * (y - 1970) + (leap_years_before y - leap_years_before 1970).
Proof.
  unfold DayFromYear, leap_years_before. Z.div_mod_to_equations. lia.
Qed.

Lemma DaysInYear_is_leap y :
  DaysInYear y = if is_leap y then 366 else 365.
Proof.
  unfold DaysInYear, is_leap.
  destruct (Z.eqb_spec (y mod 4) 0), (Z.eqb_spec (y mod 100) 0),
    (Z.eqb_spec (y mod 400) 0); cbn; try done;
    exfalso; Z.div_mod_to_equations; lia.
Qed.

(** The year, month and day that [toISOString] prints form a date of the
    civil calendar, and that date is the day the time value lies in. *)
Lemma civil_date_of_time t :
  let y := YearFromTime t in
  let m := MonthFromTime t + 1 in
  let d := DateFromTime t in
  valid_civil y m d /\ days_from_civil y m d = Day t.
Proof.
  cbn zeta. unfold valid_civil, days_from_civil.
  rewrite <- DayFromYear_leap_years.
  unfold DateFromTime, MonthFromTime, DayWithinYear, InLeapYear, YearFromTime.
  pose proof (YearFromDay_spec (Day t)) as [Hlo Hhi].
  rewrite DayFromYear_succ in Hhi.
  rewrite DaysInYear_is_leap in *.
  set (y := YearFromDay (Day t)) in *.
  set (dw := Day t - DayFromYear y).
  assert (Hdw : 0 <= dw < (if is_leap y then 366 else 365))
    by (subst dw; lia).
  assert (Hday : Day t = DayFromYear y + dw) by (subst dw; lia).
  rewrite Hday. clearbody dw. clear Hday Hlo Hhi.
  unfold days_before_month, days_in_month.
  destruct (is_leap y); cbn [Z.eqb Pos.eqb] in *;
    repeat match goal with
           | |- context [Z.ltb ?a ?b] => destruct (Z.ltb_spec a b)
           end;
    repeat match goal with
           | |- context [month_length ?l ?m] =>
               let v := eval vm_compute in (month_length l m) in
               change (month_length l m) with v
           | |- context [days_before ?l ?m] =>
               let v := eval vm_compute in (days_before l m) in
               change (days_before l m) with v
           end;
    lia.
Qed.

Lemma digit_char_not_T n : Ascii.eqb (digit_char n) "T" = false.
Proof.
  unfold digit_char.
  pose proof (Z.mod_pos_bound n 10 eq_refl) as H.
  assert (Hc : n mod 10 = 0 \/ n mod 10 = 1 \/ n mod 10 = 2 \/ n mod 10 = 3
               \/ n mod 10 = 4 \/ n mod 10 = 5 \/ n mod 10 = 6
               \/ n mod 10 = 7 \/ n mod 10 = 8 \/ n mod 10 = 9) by lia.
  clear H. repeat destruct Hc as [-> | Hc]; try rewrite Hc; reflexivity.
Qed.

Lemma split_first_pad w :
  forall n suffix,
    split_first "T" (pad w n suffix) = pad w n (split_first "T" suffix).
Proof.
  induction w as [|w IH]; intros n suffix; cbn [pad]; [done|].
  rewrite IH. cbn [split_first]. by rewrite digit_char_not_T.
Qed.

Lemma split_first_iso_year y suffix :
  split_first "T" (iso_year y suffix) = iso_year y (split_first "T" suffix).
Proof.
  unfold iso_year.
  destruct ((0 <=? y) && (y <=? 9999)).
  - apply split_first_pad.
  - destruct (y <? 0); cbn [split_first]; rewrite split_first_pad;
      reflexivity.
Qed.

Lemma split_toISOString t : split_first "T" (toISOString t) = iso_date t.
Proof.
  unfold toISOString, iso_date.
  rewrite split_first_iso_year. cbn [split_first].
  rewrite split_first_pad. cbn [split_first].
  rewrite split_first_pad. reflexivity.
Qed.

Lemma YearFromTime_four_digits t :
  four_digit_years t -> 0 <= YearFromTime t <= 9999.
Proof.
  unfold four_digit_years, YearFromTime. intros H.
  pose proof (YearFromDay_spec (Day t)) as [Hlo Hhi].
  assert (Hd : DayFromYear 0 <= Day t < DayFromYear 10000).
  { unfold Day, msPerDay. change (DayFromYear 0) with (-719528).
    change (DayFromYear 10000) with 2932897.
    Z.div_mod_to_equations. lia. }
  split.
  - apply YearFromDay_largest. lia.
  - destruct (Z.le_gt_cases (YearFromDay (Day t)) 9999) as [|Hgt]; [done|].
    exfalso. revert Hlo Hgt Hd. generalize (YearFromDay (Day t)). intros y0.
    change (DayFromYear 10000) with 2932897.
    unfold DayFromYear. intros. Z.div_mod_to_equations. lia.
Qed.

Lemma length_pad w : forall n suffix,
  String.length (pad w n suffix) = (w + String.length suffix)%nat.
Proof.
  induction w as [|w IH]; intros n suffix; cbn [pad]; [done|].
  rewrite IH. cbn. lia.
Qed.

(** In those years the date has the ten characters of YYYY-MM-DD. *)
Lemma iso_date_four_digits t :
  four_digit_years t ->
  iso_date t =
  pad 4 (YearFromTime t)
    (String "-" (pad 2 (MonthFromTime t + 1)
    (String "-" (pad 2 (DateFromTime t) EmptyString)))).
Proof.
  intros H. apply YearFromTime_four_digits in H.
  unfold iso_date, iso_year.
  destruct (Z.leb_spec 0 (YearFromTime t)); [|lia].
  destruct (Z.leb_spec (YearFromTime t) 9999); [|lia]. done.
Qed.

End DateFacts.

(** ** What the caller sees when validation fails *)

Section FailureReport.

Variable pg : Postgres.

Lemma invalid_of_messages key fd :
  field_messages CreateInvoice key (form_fields fd) <> [] ->
  success (safeParse CreateInvoice (form_fields fd)) = false.
Proof.
  intros H. destruct (success _) eqn:E; [|done].
  exfalso. apply H. by apply messages_of_success.
Qed.

Lemma failure_report st id fd w :
  success (safeParse CreateInvoice (form_fields fd)) = false ->
  createInvoice pg st fd w = (Normal (create_failure (form_errors fd)), w) /\
  updateInvoice pg id st fd w = (Normal (update_failure (form_errors fd)), w) /\
  form_errors fd !! "customerId" =
    customerId_errors (FormData_get "customerId" fd) /\
  form_errors fd !! "amount" = amount_errors (FormData_get "amount" fd) /\
  form_errors fd !! "status" = status_errors (FormData_get "status" fd) /\
  (forall key, key <> "customerId" -> key <> "amount" -> key <> "status" ->
               form_errors fd !! key = None).
Proof.
  intros H. unfold form_errors. repeat split.
  - by apply createInvoice_invalid.
  - by apply updateInvoice_invalid.
  - rewrite failure_errors, customerId_messages by done.
    by destruct (FormData_get "customerId" fd).
  - rewrite failure_errors, amount_messages by done.
    unfold amount_errors. cbn zeta.
    destruct (is_nan _); [done|]. by destruct (le _ _).
  - rewrite failure_errors, status_messages by done.
    destruct (FormData_get "status" fd) as [| |s| |]; try done.
    unfold status_errors. by destruct (string_in s ["pending"; "paid"]).
  - intros key H1 H2 H3.
    rewrite failure_errors, other_messages by done. done.
Qed.

Lemma invalid_customerId fd :
  customerId_errors (FormData_get "customerId" fd) <> None ->
  success (safeParse CreateInvoice (form_fields fd)) = false.
Proof.
  intros H. apply (invalid_of_messages "customerId").
  rewrite customerId_messages.
  by destruct (FormData_get "customerId" fd).
Qed.

Lemma invalid_amount fd :
  amount_errors (FormData_get "amount" fd) <> None ->
  success (safeParse CreateInvoice (form_fields fd)) = false.
Proof.
  intros H. apply (invalid_of_messages "amount").
  rewrite amount_messages. unfold amount_errors in H. cbn zeta in *.
  destruct (is_nan _); [done|]. by destruct (le _ _).
Qed.

Lemma invalid_status fd :
  status_errors (FormData_get "status" fd) <> None ->
  success (safeParse CreateInvoice (form_fields fd)) = false.
Proof.
  intros H. apply (invalid_of_messages "status").
  rewrite status_messages.
  destruct (FormData_get "status" fd) as [| |s| |]; try done.
  unfold status_errors in H.
  by destruct (string_in s ["pending"; "paid"]).
Qed.

(** A failing form has a failing field. *)
Lemma failure_has_cause fd :
  success (safeParse CreateInvoice (form_fields fd)) = false ->
  customerId_errors (FormData_get "customerId" fd) <> None \/
  amount_errors (FormData_get "amount" fd) <> None \/
  status_errors (FormData_get "status" fd) <> None.
Proof.
  intros H.
  destruct (FormData_get "customerId" fd) as [| |c| |] eqn:Ec;
    try (left; done).
  right.
  destruct (amount_errors (FormData_get "amount" fd)) eqn:Ea; [by left|].
  right.
  destruct (FormData_get "status" fd) as [| |s| |] eqn:Es; try done.
  unfold status_errors.
  destruct (string_in s ["pending"; "paid"]) eqn:Ein; [|done].
  exfalso.
  assert (Hv : validated fd c (ToNumber (FormData_get "amount" fd)) s).
  { unfold validated. rewrite Ec, Es. repeat split; try done.
    - apply gt_zero_iff. unfold amount_errors in Ea. cbn zeta in Ea.
      destruct (is_nan _); [done|]. by destruct (le _ _).
    - by apply string_in_status. }
  rewrite (safeParse_validated _ _ _ _ Hv) in H. done.
Qed.

End FailureReport.

(** * Main results *)

(** C1. For every id, in every world and whatever the server would do,
    [deleteInvoice id] ends by throwing [Error('Failed to Delete Invoice')]
    and leaves the world as it found it: the table is untouched, no query
    was sent (neither the DELETE nor anything else) and the listing was not
    revalidated.  Whether a row with that id exists plays no part. *)
Theorem deleteInvoice_always_fails (pg : Postgres) (id : string) (w : World) :
  deleteInvoice pg id w = (Throw (Error "Failed to Delete Invoice"), w).
Proof. reflexivity. Qed.

(** C2. For every form that passes validation, both actions end in the
    redirect to the invoices listing, after revalidating it, whether the
    server accepted the statement or rejected it.  When it rejects, the
    error is caught: it only shows as a [console.error] between the query
    and the revalidation, and the table is unchanged.  (The two actions
    validate with the same schema, so one hypothesis serves both.) *)
Theorem persistence_failure_is_swallowed
    (pg : Postgres) (st : State) (id : string) (fd : FormData) (w : World) :
  success (safeParse CreateInvoice (form_fields fd)) = true ->
  exists c x s,
    let qc := insert_query c x s (clock w) in
    let qu := update_query c x s id in
    let rc := createInvoice pg st fd w in
    let ru := updateInvoice pg id st fd w in
    validated fd c x s /\
    fst rc = Throw (NEXT_REDIRECT "/dashboard/invoices") /\
    fst ru = Throw (NEXT_REDIRECT "/dashboard/invoices") /\
    (rejects pg qc (table w) = true ->
       table (snd rc) = table w /\
       effects (snd rc) =
         effects w ++
         [EffSql qc;
          EffConsoleError "Error creating invoice:" (PostgresError qc);
          EffRevalidatePath "/dashboard/invoices"]) /\
    (rejects pg qc (table w) = false ->
       effects (snd rc) =
         effects w ++ [EffSql qc; EffRevalidatePath "/dashboard/invoices"]) /\
    (rejects pg qu (table w) = true ->
       table (snd ru) = table w /\
       effects (snd ru) =
         effects w ++
         [EffSql qu;
          EffConsoleError "Error updating invoice:" (PostgresError qu);
          EffRevalidatePath "/dashboard/invoices"]) /\
    (rejects pg qu (table w) = false ->
       effects (snd ru) =
         effects w ++ [EffSql qu; EffRevalidatePath "/dashboard/invoices"]).
Proof.
  intros H. apply validated_of_success in H as (c & x & s & Hv).
  exists c, x, s. cbn zeta.
  rewrite (createInvoice_valid pg st fd w c x s Hv).
  rewrite (updateInvoice_valid pg id st fd w c x s Hv).
  unfold after_query. rewrite run_insert, run_update. cbn [fst snd].
  split; [done|]. split; [done|]. split; [done|].
  destruct (rejects pg (insert_query c x s (clock w)) (table w)),
    (rejects pg (update_query c x s id) (table w));
    cbn [table effects]; repeat split; intros; done.
Qed.

(** A server that rejects everything: the caller is redirected all the
    same. *)
Lemma persistence_failure_is_swallowed_witness :
  success (safeParse CreateInvoice
             (form_fields (form "c1" "12.50" "pending"))) = true /\
  fst (createInvoice pg_down no_state (form "c1" "12.50" "pending")
         sample_world) = Throw (NEXT_REDIRECT "/dashboard/invoices") /\
  fst (updateInvoice pg_down "inv1" no_state (form "c1" "12.50" "pending")
         sample_world) = Throw (NEXT_REDIRECT "/dashboard/invoices").
Proof.
  split; [reflexivity|].
  destruct (persistence_failure_is_swallowed pg_down no_state "inv1"
              (form "c1" "12.50" "pending") sample_world eq_refl)
    as (c & x & s & _ & Hc & Hu & _).
  exact (conj Hc Hu).
Defined.

(** C3. For every form on which validation fails, both actions return,
    without touching the world (so no query is sent), a result with the
    summary message of the action and the same [errors]: under each of the
    three field names, the message of that field when that field is at
    fault, whatever the other fields are, and nothing under any other
    key.  At least one field is at fault; a form whose [customerId] is
    missing is one of those forms and has "Please select a customer."
    under [customerId]. *)
Theorem validation_failure_reports_every_field
    (pg : Postgres) (st : State) (id : string) (fd : FormData) (w : World) :
  success (safeParse CreateInvoice (form_fields fd)) = false ->
  exists E : gmap string (list string),
    createInvoice pg st fd w =
      (Normal {| errors := Some E;
                 message := Some "Missing Fields. Failed to Create Invoice." |},
       w) /\
    updateInvoice pg id st fd w =
      (Normal {| errors := Some E;
                 message := Some "Missing Fields. Failed to Update Invoice." |},
       w) /\
    E !! "customerId" = customerId_errors (FormData_get "customerId" fd) /\
    E !! "amount" = amount_errors (FormData_get "amount" fd) /\
    E !! "status" = status_errors (FormData_get "status" fd) /\
    (forall key, key <> "customerId" -> key <> "amount" -> key <> "status" ->
                 E !! key = None) /\
    (E !! "customerId" <> None \/ E !! "amount" <> None \/
     E !! "status" <> None) /\
    (FormData_get "customerId" fd = JNull ->
     E !! "customerId" = Some ["Please select a customer."]).
Proof.
  intros H. exists (form_errors fd).
  destruct (failure_report pg st id fd w H) as (Hc & Hu & E1 & E2 & E3 & E4).
  repeat split; try done.
  - rewrite E1, E2, E3. by apply failure_has_cause.
  - intros Hnull. by rewrite E1, Hnull.
Qed.

(** A form with no customer, a zero amount and no status: three errors. *)
Lemma validation_failure_reports_every_field_witness :
  success (safeParse CreateInvoice
             (form_fields [("amount", EntryString "0")])) = false /\
  exists E : gmap string (list string),
    createInvoice pg_up no_state [("amount", EntryString "0")] sample_world =
      (Normal {| errors := Some E;
                 message := Some "Missing Fields. Failed to Create Invoice." |},
       sample_world) /\
    E !! "customerId" = Some ["Please select a customer."] /\
    E !! "amount" = Some ["Please enter an amount greater than $0."] /\
    E !! "status" = Some ["Please select an invoice status."].
Proof.
  split; [reflexivity|].
  destruct (validation_failure_reports_every_field pg_up no_state "inv1"
              [("amount", EntryString "0")] sample_world eq_refl)
    as (E & Hc & _ & E1 & E2 & E3 & _).
  exists E. exact (conj Hc (conj E1 (conj E2 E3))).
Defined.

(** C4, as stated, fails where coercion fails: for the amount "abc",
    [Number] gives NaN, and [errors.amount] holds zod's type message, not
    the greater-than-$0 message. *)
Lemma amount_coercion_failure_counterexample :
  is_nan (ToNumber (FormData_get "amount" (form "c1" "abc" "pending"))) = true /\
  returned_errors
    (createInvoice pg_up no_state (form "c1" "abc" "pending") sample_world)
    "amount" = Some ["Expected number, received nan"] /\
  ~ In "Please enter an amount greater than $0."
      ["Expected number, received nan"].
Proof.
  split; [reflexivity|]. split; [reflexivity|].
  intros [H|[]]. discriminate H.
Qed.

(** C4, amended.  For every form whose amount coerces to a Number that is
    at most 0, or to NaN, validation fails: both actions return their
    failure result and leave the world untouched (no query is sent).
    [errors.amount] is exactly ["Please enter an amount greater than $0."]
    when the Number is at most 0, and exactly
    ["Expected number, received nan"] when coercion gave NaN. *)
Theorem nonpositive_amount_is_rejected
    (pg : Postgres) (st : State) (id : string) (fd : FormData) (w : World) :
  le (ToNumber (FormData_get "amount" fd)) (of_Z 0) = true \/
  is_nan (ToNumber (FormData_get "amount" fd)) = true ->
  exists E : gmap string (list string),
    createInvoice pg st fd w =
      (Normal {| errors := Some E;
                 message := Some "Missing Fields. Failed to Create Invoice." |},
       w) /\
    updateInvoice pg id st fd w =
      (Normal {| errors := Some E;
                 message := Some "Missing Fields. Failed to Update Invoice." |},
       w) /\
    E !! "amount" =
      Some [if is_nan (ToNumber (FormData_get "amount" fd))
            then "Expected number, received nan"
            else "Please enter an amount greater than $0."].
Proof.
  intros H.
  assert (Ha : amount_errors (FormData_get "amount" fd) =
               Some [if is_nan (ToNumber (FormData_get "amount" fd))
                     then msg_nan else msg_amount]).
  { unfold amount_errors. cbn zeta.
    destruct (is_nan (ToNumber (FormData_get "amount" fd))); [done|].
    destruct H as [-> | H]; done. }
  assert (Hf : success (safeParse CreateInvoice (form_fields fd)) = false).
  { apply invalid_amount. by rewrite Ha. }
  destruct (failure_report pg st id fd w Hf) as (Hc & Hu & _ & E2 & _).
  exists (form_errors fd). by rewrite E2, Ha.
Qed.

(** An amount of "-3", then one that is not a number. *)
Lemma nonpositive_amount_is_rejected_witness :
  (le (ToNumber (FormData_get "amount" (form "c1" "-3" "paid"))) (of_Z 0)
   = true \/
   is_nan (ToNumber (FormData_get "amount" (form "c1" "-3" "paid"))) = true) /\
  (exists E : gmap string (list string),
     createInvoice pg_up no_state (form "c1" "-3" "paid") sample_world =
       (Normal {| errors := Some E;
                  message := Some "Missing Fields. Failed to Create Invoice." |},
        sample_world) /\
     E !! "amount" = Some ["Please enter an amount greater than $0."]) /\
  (exists E : gmap string (list string),
     createInvoice pg_up no_state (form "c1" "abc" "paid") sample_world =
       (Normal {| errors := Some E;
                  message := Some "Missing Fields. Failed to Create Invoice." |},
        sample_world) /\
     E !! "amount" = Some ["Expected number, received nan"]).
Proof.
  split; [left; reflexivity|]. split.
  - destruct (nonpositive_amount_is_rejected pg_up no_state "inv1"
                (form "c1" "-3" "paid") sample_world (or_introl eq_refl))
      as (E & Hc & _ & Ha).
    exists E. exact (conj Hc Ha).
  - destruct (nonpositive_amount_is_rejected pg_up no_state "inv1"
                (form "c1" "abc" "paid") sample_world (or_intror eq_refl))
      as (E & Hc & _ & Ha).
    exists E. exact (conj Hc Ha).
Defined.

(** C5, as stated, fails for a status that is a string outside the
    enumeration: the custom text is the schema's [invalid_type_error], and
    zod reports such a string as an invalid enum value, with its own
    message. *)
Lemma status_message_counterexample :
  FormData_get "status" (form "c1" "10" "overdue") <> JString "pending" /\
  FormData_get "status" (form "c1" "10" "overdue") <> JString "paid" /\
  returned_errors
    (createInvoice pg_up no_state (form "c1" "10" "overdue") sample_world)
    "status" =
    Some ["Invalid enum value. Expected 'pending' | 'paid', received 'overdue'"]
  /\
  ~ In "Please select an invoice status."
      ["Invalid enum value. Expected 'pending' | 'paid', received 'overdue'"].
Proof.
  split; [discriminate|]. split; [discriminate|]. split; [reflexivity|].
  intros [H|[]]. discriminate H.
Qed.

(** C5, amended.  For every form whose status is neither 'pending' nor
    'paid', validation fails: both actions return their failure result and
    leave the world untouched (no query is sent).  [errors.status] is
    exactly ["Please select an invoice status."] when the status is missing
    or is not a string, and exactly zod's invalid-enum-value message, which
    quotes the value, when it is some other string. *)
Theorem invalid_status_is_rejected
    (pg : Postgres) (st : State) (id : string) (fd : FormData) (w : World) :
  FormData_get "status" fd <> JString "pending" ->
  FormData_get "status" fd <> JString "paid" ->
  exists E : gmap string (list string),
    createInvoice pg st fd w =
      (Normal {| errors := Some E;
                 message := Some "Missing Fields. Failed to Create Invoice." |},
       w) /\
    updateInvoice pg id st fd w =
      (Normal {| errors := Some E;
                 message := Some "Missing Fields. Failed to Update Invoice." |},
       w) /\
    E !! "status" =
      Some [match FormData_get "status" fd with
            | JString s =>
                "Invalid enum value. Expected 'pending' | 'paid', received '"
                  +:+ s +:+ "'"
            | _ => "Please select an invoice status."
            end].
Proof.
  intros H1 H2.
  assert (Hs : status_errors (FormData_get "status" fd) =
               Some [match FormData_get "status" fd with
                     | JString s => msg_enum s
                     | _ => msg_status
                     end]).
  { destruct (FormData_get "status" fd) as [| |s| |]; try done.
    unfold status_errors.
    destruct (string_in s ["pending"; "paid"]) eqn:E; [|done].
    apply string_in_status in E as [-> | ->]; done. }
  assert (Hf : success (safeParse CreateInvoice (form_fields fd)) = false).
  { apply invalid_status. by rewrite Hs. }
  destruct (failure_report pg st id fd w Hf) as (Hc & Hu & _ & _ & E3 & _).
  exists (form_errors fd). by rewrite E3, Hs.
Qed.

(** No status chosen: the lookup gives [null] and the custom text shows. *)
Lemma invalid_status_is_rejected_witness :
  FormData_get "status" [("customerId", EntryString "c1");
                         ("amount", EntryString "10")] <> JString "pending" /\
  FormData_get "status" [("customerId", EntryString "c1");
                         ("amount", EntryString "10")] <> JString "paid" /\
  exists E : gmap string (list string),
    createInvoice pg_up no_state
      [("customerId", EntryString "c1"); ("amount", EntryString "10")]
      sample_world =
      (Normal {| errors := Some E;
                 message := Some "Missing Fields. Failed to Create Invoice." |},
       sample_world) /\
    E !! "status" = Some ["Please select an invoice status."].
Proof.
  assert (H1 : FormData_get "status" [("customerId", EntryString "c1");
                 ("amount", EntryString "10")] <> JString "pending")
    by discriminate.
  assert (H2 : FormData_get "status" [("customerId", EntryString "c1");
                 ("amount", EntryString "10")] <> JString "paid")
    by discriminate.
  split; [exact H1|]. split; [exact H2|].
  destruct (invalid_status_is_rejected pg_up no_state "inv1"
              [("customerId", EntryString "c1"); ("amount", EntryString "10")]
              sample_world H1 H2)
    as (E & Hc & _ & Hs).
  exists E. exact (conj Hc Hs).
Defined.

(** C10. When the form has no entry named [amount], the lookup gives
    [null], [Number(null)] is 0, and 0 is not above 0: both actions return
    their failure result, with the world untouched, and [errors.amount] is
    exactly ["Please enter an amount greater than $0."], not a
    required-field or a type message. *)
Theorem absent_amount_reads_as_zero
    (pg : Postgres) (st : State) (id : string) (fd : FormData) (w : World) :
  ~ In "amount" (map fst fd) ->
  FormData_get "amount" fd = JNull /\
  ToNumber (FormData_get "amount" fd) = of_Z 0 /\
  gt (of_Z 0) (of_Z 0) = false /\
  exists E : gmap string (list string),
    createInvoice pg st fd w =
      (Normal {| errors := Some E;
                 message := Some "Missing Fields. Failed to Create Invoice." |},
       w) /\
    updateInvoice pg id st fd w =
      (Normal {| errors := Some E;
                 message := Some "Missing Fields. Failed to Update Invoice." |},
       w) /\
    E !! "amount" = Some ["Please enter an amount greater than $0."].
Proof.
  intros H. apply FormData_get_absent in H.
  split; [done|]. rewrite H. split; [done|]. split; [done|].
  assert (Ha : amount_errors (FormData_get "amount" fd) = Some [msg_amount])
    by (by rewrite H).
  assert (Hf : success (safeParse CreateInvoice (form_fields fd)) = false).
  { apply invalid_amount. by rewrite Ha. }
  destruct (failure_report pg st id fd w Hf) as (Hc & Hu & _ & E2 & _).
  exists (form_errors fd). by rewrite E2, Ha.
Qed.

(** A form with a customer and a status but no amount. *)
Lemma absent_amount_reads_as_zero_witness :
  ~ In "amount" (map fst [("customerId", EntryString "c1");
                          ("status", EntryString "paid")]) /\
  returned_errors
    (createInvoice pg_up no_state
       [("customerId", EntryString "c1"); ("status", EntryString "paid")]
       sample_world) "amount" =
  Some ["Please enter an amount greater than $0."].
Proof.
  assert (H : ~ In "amount" (map fst [("customerId", EntryString "c1");
                                      ("status", EntryString "paid")])).
  { cbn. intros [H|[H|[]]]; discriminate H. }
  split; [exact H|].
  destruct (absent_amount_reads_as_zero pg_up no_state "inv1"
              [("customerId", EntryString "c1"); ("status", EntryString "paid")]
              sample_world H)
    as (_ & _ & _ & E & Hc & _ & Ha).
  unfold returned_errors. rewrite Hc. exact Ha.
Defined.

(** ** The amount in cents *)

(** [StringToNumber] and the products below agree with the hardware's
    binary64 arithmetic on these inputs. *)
Example StringToNumber_hardware :
  StringToNumber "0.01" = Prim2SF 0.01%float /\
  StringToNumber "12.50" = Prim2SF 12.5%float /\
  StringToNumber "1.15" = Prim2SF 1.15%float /\
  StringToNumber "100" = Prim2SF 100%float /\
  mul (StringToNumber "1.15") (of_Z 100) = Prim2SF (1.15 * 100)%float /\
  mul (StringToNumber "0.01") (of_Z 100) = Prim2SF (0.01 * 100)%float.
Proof. repeat split; reflexivity. Qed.

Example StringToNumber_edge_cases :
  StringToNumber EmptyString = pos_zero /\
  StringToNumber "   " = pos_zero /\
  StringToNumber " 7 " = of_Z 7 /\
  StringToNumber "-0" = neg_zero /\
  StringToNumber "0x1F" = of_Z 31 /\
  StringToNumber "1e3" = of_Z 1000 /\
  StringToNumber "-Infinity" = neg_infinity /\
  StringToNumber "1e400" = pos_infinity /\
  StringToNumber "abc" = NaN /\
  StringToNumber "12px" = NaN /\
  StringToNumber "1,5" = NaN /\
  StringToNumber "." = NaN.
Proof. repeat split; reflexivity. Qed.

(** C6, as stated, fails on the integer: "1.15" is a valid amount, and the
    amount sent to the store for it is 114.99999999999999, which is not an
    integer. *)
Lemma amount_in_cents_counterexample :
  success (safeParse CreateInvoice
             (form_fields (form "c1" "1.15" "pending"))) = true /\
  effects (snd (createInvoice pg_up no_state (form "c1" "1.15" "pending")
                  sample_world)) =
    [EffSql (INSERT_INTO_invoices (JString "c1")
               (JNumber (Prim2SF 114.99999999999999%float))
               (JString "pending") (JString "2026-11-01"));
     EffRevalidatePath "/dashboard/invoices"] /\
  is_integer (Prim2SF 114.99999999999999%float) = false.
Proof. repeat split; reflexivity. Qed.

(** C6, amended.  For every form that passes validation, with [x] the
    Number its amount coerces to, the amount either action sends to the
    store is the binary64 product [x * 100], with no rounding step and
    depending on nothing else.  For the amounts "0.01", "100" and "12.50"
    that product is the integer 1, 10000 and 1250. *)
Theorem amount_in_cents_is_the_product
    (pg : Postgres) (st : State) (id : string) (fd : FormData) (w : World)
    (c : string) (x : number) (s : string) :
  validated fd c x s ->
  x = ToNumber (FormData_get "amount" fd) /\
  (exists d rest,
     effects (snd (createInvoice pg st fd w)) =
     effects w ++
     EffSql (INSERT_INTO_invoices (JString c) (JNumber (mul x (of_Z 100)))
               (JString s) d) :: rest) /\
  (exists rest,
     effects (snd (updateInvoice pg id st fd w)) =
     effects w ++
     EffSql (UPDATE_invoices (JString c) (JNumber (mul x (of_Z 100)))
               (JString s) (JString id)) :: rest) /\
  mul (StringToNumber "0.01") (of_Z 100) = of_Z 1 /\
  mul (StringToNumber "100") (of_Z 100) = of_Z 10000 /\
  mul (StringToNumber "12.50") (of_Z 100) = of_Z 1250.
Proof.
  intros Hv. split; [by destruct Hv as (_ & <- & _)|].
  rewrite (createInvoice_valid pg st fd w c x s Hv).
  rewrite (updateInvoice_valid pg id st fd w c x s Hv).
  unfold after_query. rewrite run_insert, run_update. cbn [snd].
  split; [|split].
  - exists (JString (split_first "T" (toISOString (clock w)))).
    destruct (rejects pg _ (table w)); cbn [effects]; eexists; reflexivity.
  - destruct (rejects pg _ (table w)); cbn [effects]; eexists; reflexivity.
  - repeat split; reflexivity.
Qed.

(** The form of the specification's example: 12.50 becomes 1250. *)
Lemma amount_in_cents_is_the_product_witness :
  validated (form "c1" "12.50" "pending") "c1" (StringToNumber "12.50")
    "pending" /\
  exists d rest,
    effects (snd (createInvoice pg_up no_state (form "c1" "12.50" "pending")
                    sample_world)) =
    [] ++
    EffSql (INSERT_INTO_invoices (JString "c1")
              (JNumber (mul (StringToNumber "12.50") (of_Z 100)))
              (JString "pending") d) :: rest.
Proof.
  split; [exact validated_sample|].
  destruct (amount_in_cents_is_the_product pg_up no_state "inv1"
              (form "c1" "12.50" "pending") sample_world
              "c1" (StringToNumber "12.50") "pending" validated_sample)
    as (_ & H & _).
  exact H.
Defined.

(** ** The row that is written *)

(** C7. For every form that passes validation, with the clock anywhere in
    the years 0000 to 9999, [createInvoice] sends an INSERT whose date
    parameter is YYYY-MM-DD (ten characters) for the year, month and day
    that the clock's time value falls on in UTC: a valid date of the civil
    calendar whose day number is the clock's day number.  The date is
    computed from the clock alone, whatever entries the form has.  When
    the server accepts the statement the new row carries that date; when
    it rejects it, the table is unchanged. *)
Theorem created_row_is_dated_today
    (pg : Postgres) (st : State) (fd : FormData) (w : World)
    (c : string) (x : number) (s : string) :
  validated fd c x s ->
  four_digit_years (clock w) ->
  let y := YearFromTime (clock w) in
  let m := MonthFromTime (clock w) + 1 in
  let d := DateFromTime (clock w) in
  let date := pad 4 y (String "-" (pad 2 m (String "-" (pad 2 d EmptyString)))) in
  let q := INSERT_INTO_invoices (JString c) (JNumber (mul x (of_Z 100)))
             (JString s) (JString date) in
  (exists rest,
     effects (snd (createInvoice pg st fd w)) = effects w ++ EffSql q :: rest) /\
  (rejects pg q (table w) = false ->
   table (snd (createInvoice pg st fd w)) =
   table w ++ [invoices.mkRow (new_id pg (table w)) c (mul x (of_Z 100)) s date]) /\
  (rejects pg q (table w) = true ->
   table (snd (createInvoice pg st fd w)) = table w) /\
  String.length date = 10%nat /\
  valid_civil y m d /\
  days_from_civil y m d = Day (clock w).
Proof.
  intros Hv Hy. cbn zeta.
  rewrite (createInvoice_valid pg st fd w c x s Hv).
  unfold after_query. rewrite run_insert. unfold insert_query.
  rewrite split_toISOString, (iso_date_four_digits _ Hy). cbn [snd].
  pose proof (civil_date_of_time (clock w)) as [Hvalid Hday].
  split; [|split; [|split; [|split; [|split]]]].
  - destruct (rejects pg _ (table w)); cbn [effects]; eexists; reflexivity.
  - by intros ->.
  - by intros ->.
  - by rewrite !length_pad.
  - exact Hvalid.
  - exact Hday.
Qed.

(** The sample clock reads 2026-11-01T17:54:56.789Z. *)
Lemma created_row_is_dated_today_witness :
  validated (form "c1" "12.50" "pending") "c1" (StringToNumber "12.50")
    "pending" /\
  four_digit_years (clock sample_world) /\
  table (snd (createInvoice pg_up no_state (form "c1" "12.50" "pending")
                sample_world)) =
  table sample_world ++
  [invoices.mkRow "inv-new" "c1" (of_Z 1250) "pending" "2026-11-01"].
Proof.
  assert (Hy : four_digit_years (clock sample_world))
    by (unfold four_digit_years; cbn; lia).
  split; [exact validated_sample|]. split; [exact Hy|].
  destruct (created_row_is_dated_today pg_up no_state
              (form "c1" "12.50" "pending") sample_world
              "c1" (StringToNumber "12.50") "pending" validated_sample Hy)
    as (_ & H & _).
  exact (H eq_refl).
Defined.

(** C8. For every form that passes validation and every id,
    [updateInvoice] sends one UPDATE that sets [customer_id], [amount] and
    [status] where the id matches.  Afterwards the table has the same rows
    in the same places; every row keeps its id and its date; a row with
    another id is unchanged altogether; and, when the server accepts the
    statement, a row with that id has the three validated values. *)
Theorem update_overwrites_three_columns
    (pg : Postgres) (st : State) (id : string) (fd : FormData) (w : World)
    (c : string) (x : number) (s : string) :
  validated fd c x s ->
  let q := UPDATE_invoices (JString c) (JNumber (mul x (of_Z 100)))
             (JString s) (JString id) in
  let w' := snd (updateInvoice pg id st fd w) in
  (exists rest, effects w' = effects w ++ EffSql q :: rest) /\
  length (table w') = length (table w) /\
  forall (i : nat) (r : invoices.row),
    table w !! i = Some r ->
    exists r' : invoices.row,
      table w' !! i = Some r' /\
      invoices.id r' = invoices.id r /\
      invoices.date r' = invoices.date r /\
      (invoices.id r <> id -> r' = r) /\
      (invoices.id r = id -> rejects pg q (table w) = false ->
       invoices.customer_id r' = c /\
       invoices.amount r' = mul x (of_Z 100) /\
       invoices.status r' = s).
Proof.
  intros Hv. cbn zeta.
  rewrite (updateInvoice_valid pg id st fd w c x s Hv).
  unfold after_query. rewrite run_update. fold (update_query c x s id).
  cbn [snd].
  destruct (rejects pg (update_query c x s id) (table w)); cbn [table effects].
  - split; [eexists; reflexivity|]. split; [done|].
    intros i r Hr. exists r. repeat split; try done.
  - split; [eexists; reflexivity|]. split; [by rewrite length_map|].
    intros i r Hr.
    exists (if String.eqb (invoices.id r) id
            then set_columns c (mul x (of_Z 100)) s r else r).
    split; [by rewrite lookup_map, Hr|].
    destruct (String.eqb_spec (invoices.id r) id) as [Heq|Hne];
      repeat split; done.
Qed.

(** The specification's example: invoice inv1 gets customer c2, amount 5
    and status paid, and keeps its date. *)
Lemma update_overwrites_three_columns_witness :
  validated (form "c2" "5" "paid") "c2" (StringToNumber "5") "paid" /\
  exists r' : invoices.row,
    table (snd (updateInvoice pg_up "inv1" no_state (form "c2" "5" "paid")
                  sample_world)) !! 0%nat = Some r' /\
    invoices.id r' = "inv1" /\
    invoices.date r' = "2024-05-17" /\
    invoices.customer_id r' = "c2" /\
    invoices.amount r' = of_Z 500 /\
    invoices.status r' = "paid".
Proof.
  assert (Hv : validated (form "c2" "5" "paid") "c2" (StringToNumber "5")
                 "paid").
  { unfold validated. repeat split; try reflexivity. by right. }
  split; [exact Hv|].
  destruct (update_overwrites_three_columns pg_up no_state "inv1"
              (form "c2" "5" "paid") sample_world
              "c2" (StringToNumber "5") "paid" Hv)
    as (_ & _ & H).
  destruct (H 0%nat _ eq_refl) as (r' & Hr' & Hid & Hdate & _ & Hset).
  destruct (Hset eq_refl eq_refl) as (Hc & Ha & Hs).
  exists r'. exact (conj Hr' (conj Hid (conj Hdate (conj Hc (conj Ha Hs))))).
Defined.

Example update_inv1 :
  table (snd (updateInvoice pg_up "inv1" no_state (form "c2" "5" "paid")
                sample_world)) =
  [invoices.mkRow "inv1" "c2" (of_Z 500) "paid" "2024-05-17"].
Proof. reflexivity. Qed.

(** An id that matches no row: nothing changes, and the caller is
    redirected as after a successful update. *)
Example update_unknown_id :
  updateInvoice pg_up "inv9" no_state (form "c2" "5" "paid") sample_world =
  (Throw (NEXT_REDIRECT "/dashboard/invoices"),
   mkWorld (table sample_world) (clock sample_world)
     [EffSql (UPDATE_invoices (JString "c2") (JNumber (of_Z 500))
                (JString "paid") (JString "inv9"));
      EffRevalidatePath "/dashboard/invoices"]).
Proof. reflexivity. Qed.

(** ** One schema for both actions *)

(** C9. [CreateInvoice] and [UpdateInvoice] are both [FormSchema] without
    [id] and [date], and parsing a form with one gives what parsing it with
    the other gives.  So for every form the two actions agree: either both
    return the same [errors], each with its own summary message and
    without touching the world, or both go on with the same three validated
    values, which are the parameters of the INSERT and of the UPDATE. *)
Theorem create_and_update_validate_alike
    (pg : Postgres) (st : State) (id : string) (fd : FormData) (w : World) :
  CreateInvoice = omit ["id"; "date"] FormSchema /\
  UpdateInvoice = omit ["id"; "date"] FormSchema /\
  safeParse CreateInvoice (form_fields fd) =
    safeParse UpdateInvoice (form_fields fd) /\
  ((exists E : gmap string (list string),
      createInvoice pg st fd w =
        (Normal {| errors := Some E;
                   message := Some "Missing Fields. Failed to Create Invoice." |},
         w) /\
      updateInvoice pg id st fd w =
        (Normal {| errors := Some E;
                   message := Some "Missing Fields. Failed to Update Invoice." |},
         w))
   \/
   (exists (c : string) (x : number) (s : string) (d : JsValue)
           (rest_c rest_u : list Effect),
      safeParse CreateInvoice (form_fields fd) =
        SafeParseSuccess
          {[ "customerId" := JString c; "amount" := JNumber x;
             "status" := JString s ]} /\
      effects (snd (createInvoice pg st fd w)) =
        effects w ++
        EffSql (INSERT_INTO_invoices (JString c) (JNumber (mul x (of_Z 100)))
                  (JString s) d) :: rest_c /\
      effects (snd (updateInvoice pg id st fd w)) =
        effects w ++
        EffSql (UPDATE_invoices (JString c) (JNumber (mul x (of_Z 100)))
                  (JString s) (JString id)) :: rest_u)).
Proof.
  split; [reflexivity|]. split; [reflexivity|]. split; [reflexivity|].
  destruct (success (safeParse CreateInvoice (form_fields fd))) eqn:H.
  - right. apply validated_of_success in H as (c & x & s & Hv).
    exists c, x, s, (JString (split_first "T" (toISOString (clock w)))).
    rewrite (createInvoice_valid pg st fd w c x s Hv).
    rewrite (updateInvoice_valid pg id st fd w c x s Hv).
    unfold after_query. rewrite run_insert, run_update. cbn [snd].
    destruct (rejects pg (insert_query c x s (clock w)) (table w)),
      (rejects pg (update_query c x s id) (table w)); cbn [effects];
      do 2 eexists; (split; [by apply safeParse_validated|]);
      split; reflexivity.
  - left. exists (form_errors fd).
    by destruct (failure_report pg st id fd w H) as (Hc & Hu & _).
Qed.

(** * Further properties of the actions *)

(** ** Which forms pass, and what is read of a form *)

(** X1. A form passes the validation of either action exactly when its
    [customerId] is a string (any string, the empty one included), its
    amount coerces to a Number above 0 (which +Infinity is) and its status
    is the string 'pending' or the string 'paid'. *)
Theorem accepted_forms_exactly (fd : FormData) :
  (success (safeParse CreateInvoice (form_fields fd)) = true <->
   (exists c : string, FormData_get "customerId" fd = JString c) /\
   gt (ToNumber (FormData_get "amount" fd)) (of_Z 0) = true /\
   (FormData_get "status" fd = JString "pending" \/
    FormData_get "status" fd = JString "paid")) /\
  success (safeParse UpdateInvoice (form_fields fd)) =
    success (safeParse CreateInvoice (form_fields fd)) /\
  success (safeParse CreateInvoice (form_fields (form EmptyString "1" "paid")))
    = true /\
  success (safeParse CreateInvoice
             (form_fields (form "c1" "Infinity" "paid"))) = true.
Proof.
  split; [|repeat split; reflexivity].
  rewrite success_iff_validated. unfold validated. split.
  - intros (c & x & s & Hc & Hx & Hgt & Hs & [-> | ->]); subst x;
      (split; [by exists c|]); (split; [done|]); [by left | by right].
  - intros ((c & Hc) & Hgt & Hs).
    exists c, (ToNumber (FormData_get "amount" fd)).
    destruct Hs as [Hs | Hs]; [exists "pending" | exists "paid"];
      repeat split; try done; [by left | by right].
Qed.

(** X2. Every call of [createInvoice] or [updateInvoice] ends in one of
    three ways and no other: it returns the validation failure and leaves
    the world as it was; or it redirects to the listing after exactly one
    query and one revalidation; or it redirects to the listing after
    exactly one query, one [console.error] for that query and one
    revalidation, with the table unchanged.  So neither action ever sends
    a second query, ever lets an error of the store or of zod reach the
    caller, or ever revalidates without having sent its query. *)
Theorem actions_end_in_three_ways
    (pg : Postgres) (st : State) (id : string) (fd : FormData) (w : World) :
  let ends (label failure : string) (r : Completion State * World) : Prop :=
    (exists E : gmap string (list string),
       r = (Normal {| errors := Some E; message := Some failure |}, w)) \/
    (exists q : Statement,
       fst r = Throw (NEXT_REDIRECT "/dashboard/invoices") /\
       clock (snd r) = clock w /\
       (effects (snd r) =
          effects w ++ [EffSql q; EffRevalidatePath "/dashboard/invoices"] \/
        effects (snd r) =
          effects w ++ [EffSql q; EffConsoleError label (PostgresError q);
                        EffRevalidatePath "/dashboard/invoices"] /\
        table (snd r) = table w)) in
  ends "Error creating invoice:" "Missing Fields. Failed to Create Invoice."
    (createInvoice pg st fd w) /\
  ends "Error updating invoice:" "Missing Fields. Failed to Update Invoice."
    (updateInvoice pg id st fd w).
Proof.
  cbn zeta.
  destruct (success (safeParse CreateInvoice (form_fields fd))) eqn:H.
  - apply validated_of_success in H as (c & x & s & Hv).
    rewrite (createInvoice_valid pg st fd w c x s Hv).
    rewrite (updateInvoice_valid pg id st fd w c x s Hv).
    unfold after_query. rewrite run_insert, run_update. cbn [fst snd].
    split; right.
    + exists (insert_query c x s (clock w)).
      destruct (rejects pg _ (table w)); cbn [table effects clock];
        (split; [done|]); (split; [done|]); [by right | by left].
    + exists (update_query c x s id).
      destruct (rejects pg _ (table w)); cbn [table effects clock];
        (split; [done|]); (split; [done|]); [by right | by left].
  - destruct (failure_report pg st id fd w H) as (Hc & Hu & _).
    split; left; exists (form_errors fd); done.
Qed.

(** X3. The actions read three things of the form and nothing else: the
    first entry named [customerId], the first named [amount] and the first
    named [status].  Two forms that agree on these three lookups get the
    same result, whatever else they hold (an [id] or a [date] entry, later
    entries of the same names) and whatever the previous state was. *)
Theorem only_three_entries_are_read
    (pg : Postgres) (st st' : State) (id : string) (fd fd' : FormData)
    (w : World) :
  FormData_get "customerId" fd = FormData_get "customerId" fd' ->
  FormData_get "amount" fd = FormData_get "amount" fd' ->
  FormData_get "status" fd = FormData_get "status" fd' ->
  createInvoice pg st fd w = createInvoice pg st' fd' w /\
  updateInvoice pg id st fd w = updateInvoice pg id st' fd' w.
Proof.
  intros Hc Ha Hs.
  assert (Hf : form_fields fd = form_fields fd')
    by (unfold form_fields; by rewrite Hc, Ha, Hs).
  unfold createInvoice, updateInvoice. by rewrite Hf.
Qed.

(** A date, an id and a second amount that the actions never look at. *)
Lemma only_three_entries_are_read_witness :
  createInvoice pg_up no_state (form "c1" "12.50" "pending") sample_world =
  createInvoice pg_up no_state
    (("date", EntryString "1999-12-31") :: ("id", EntryString "inv1")
     :: form "c1" "12.50" "pending" ++ [("amount", EntryString "-1")])
    sample_world.
Proof.
  exact (proj1 (only_three_entries_are_read pg_up no_state no_state "inv1"
                  (form "c1" "12.50" "pending")
                  (("date", EntryString "1999-12-31")
                   :: ("id", EntryString "inv1")
                   :: form "c1" "12.50" "pending"
                   ++ [("amount", EntryString "-1")])
                  sample_world eq_refl eq_refl eq_refl)).
Defined.

(** ** Amounts at the edges *)

Lemma strip_blank c l :
  ascii_blank c = true -> strip_any white_space (c :: l) = Some l.
Proof.
  unfold ascii_blank. cbn [existsb]. rewrite !orb_true_iff, !Z.eqb_eq.
  intros [-> | [-> | [-> | [-> | [-> | [-> | [=]]]]]]]; reflexivity.
Qed.

Lemma trim_start_fuel_blank l :
  forall fuel, (length l <= fuel)%nat -> forallb ascii_blank l = true ->
               trim_start_fuel fuel white_space l = [].
Proof.
  induction l as [|c l IH]; intros fuel Hl Hb.
  - destruct fuel; reflexivity.
  - cbn in Hb. apply andb_true_iff in Hb as [Hc Hb].
    destruct fuel as [|fuel]; [cbn in Hl; lia|].
    cbn [trim_start_fuel]. rewrite (strip_blank c l Hc).
    apply IH; [cbn in Hl; lia | done].
Qed.

(** [Number] of a string of blanks is 0. *)
Lemma StringToNumber_blank s : blank s = true -> StringToNumber s = pos_zero.
Proof.
  unfold blank, StringToNumber, trim, trim_start. intros Hb.
  by rewrite (trim_start_fuel_blank (codes s) _ (le_n _) Hb).
Qed.

(** X4. When the amount of the form is a string that is empty or holds
    only spaces, tabs and line breaks, [Number] reads it as 0; validation
    fails and [errors.amount] is ["Please enter an amount greater than $0."]
    for both actions, and the world is untouched. *)
Theorem blank_amount_is_zero
    (pg : Postgres) (st : State) (id : string) (fd : FormData) (w : World)
    (s : string) :
  FormData_get "amount" fd = JString s ->
  blank s = true ->
  ToNumber (FormData_get "amount" fd) = of_Z 0 /\
  exists E : gmap string (list string),
    createInvoice pg st fd w =
      (Normal {| errors := Some E;
                 message := Some "Missing Fields. Failed to Create Invoice." |},
       w) /\
    updateInvoice pg id st fd w =
      (Normal {| errors := Some E;
                 message := Some "Missing Fields. Failed to Update Invoice." |},
       w) /\
    E !! "amount" = Some ["Please enter an amount greater than $0."].
Proof.
  intros Hs Hb.
  assert (Hx : ToNumber (FormData_get "amount" fd) = of_Z 0)
    by (rewrite Hs; cbn [ToNumber]; by apply StringToNumber_blank).
  split; [done|].
  assert (Ha : amount_errors (FormData_get "amount" fd) = Some [msg_amount])
    by (unfold amount_errors; by rewrite Hx).
  assert (Hf : success (safeParse CreateInvoice (form_fields fd)) = false).
  { apply invalid_amount. by rewrite Ha. }
  destruct (failure_report pg st id fd w Hf) as (Hc & Hu & _ & E2 & _).
  exists (form_errors fd). by rewrite E2, Ha.
Qed.

(** The amount box left empty. *)
Lemma blank_amount_is_zero_witness :
  FormData_get "amount" (form "c1" EmptyString "paid") = JString EmptyString /\
  blank EmptyString = true /\
  returned_errors
    (createInvoice pg_up no_state (form "c1" EmptyString "paid") sample_world)
    "amount" = Some ["Please enter an amount greater than $0."].
Proof.
  split; [reflexivity|]. split; [reflexivity|].
  destruct (blank_amount_is_zero pg_up no_state "inv1"
              (form "c1" EmptyString "paid") sample_world EmptyString
              eq_refl eq_refl)
    as (_ & E & Hc & _ & Ha).
  unfold returned_errors. rewrite Hc. exact Ha.
Defined.

(** X5. The schema puts no upper bound on the amount and does not ask for
    a finite one: when the amount coerces to +Infinity (as "Infinity" and
    "1e999" do) and the other two fields are valid, validation passes and
    both actions send +Infinity as the amount in cents, then redirect. *)
Theorem infinite_amount_is_accepted
    (pg : Postgres) (st : State) (id : string) (fd : FormData) (w : World)
    (c s : string) :
  FormData_get "customerId" fd = JString c ->
  ToNumber (FormData_get "amount" fd) = pos_infinity ->
  FormData_get "status" fd = JString s ->
  s = "pending" \/ s = "paid" ->
  success (safeParse CreateInvoice (form_fields fd)) = true /\
  fst (createInvoice pg st fd w) = Throw (NEXT_REDIRECT "/dashboard/invoices") /\
  fst (updateInvoice pg id st fd w) = Throw (NEXT_REDIRECT "/dashboard/invoices") /\
  (exists d rest,
     effects (snd (createInvoice pg st fd w)) =
     effects w ++
     EffSql (INSERT_INTO_invoices (JString c) (JNumber pos_infinity)
               (JString s) d) :: rest) /\
  (exists rest,
     effects (snd (updateInvoice pg id st fd w)) =
     effects w ++
     EffSql (UPDATE_invoices (JString c) (JNumber pos_infinity)
               (JString s) (JString id)) :: rest).
Proof.
  intros Hc Hx Hs Hin.
  assert (Hv : validated fd c pos_infinity s)
    by (unfold validated; by rewrite Hc, Hx, Hs).
  split; [apply success_iff_validated; by exists c, pos_infinity, s|].
  rewrite (createInvoice_valid pg st fd w c _ s Hv).
  rewrite (updateInvoice_valid pg id st fd w c _ s Hv).
  unfold after_query. rewrite run_insert, run_update. cbn [fst snd].
  split; [done|]. split; [done|]. split.
  - exists (JString (split_first "T" (toISOString (clock w)))).
    destruct (rejects pg _ (table w)); cbn [effects]; eexists; reflexivity.
  - destruct (rejects pg _ (table w)); cbn [effects]; eexists; reflexivity.
Qed.

(** An amount too large for a Number. *)
Lemma infinite_amount_is_accepted_witness :
  ToNumber (FormData_get "amount" (form "c1" "1e999" "paid")) = pos_infinity /\
  success (safeParse CreateInvoice (form_fields (form "c1" "1e999" "paid")))
    = true /\
  fst (createInvoice pg_up no_state (form "c1" "1e999" "paid") sample_world)
    = Throw (NEXT_REDIRECT "/dashboard/invoices").
Proof.
  split; [reflexivity|].
  destruct (infinite_amount_is_accepted pg_up no_state "inv1"
              (form "c1" "1e999" "paid") sample_world "c1" "paid"
              eq_refl eq_refl eq_refl (or_intror eq_refl))
    as (H1 & H2 & _).
  exact (conj H1 H2).
Defined.

(** Rounding a mantissa that is not negative gives a Number of the sign
    asked for. *)
Lemma shr_1_nonneg mrs : 0 <= shr_m mrs -> 0 <= shr_m (shr_1 mrs).
Proof.
  destruct mrs as [m r s]. destruct m as [|p|p]; cbn; [done| |lia].
  intros _. destruct p; cbn; lia.
Qed.

Lemma iter_pos_invariant {A : Type} (P : A -> Prop) (f : A -> A) :
  (forall a, P a -> P (f a)) ->
  forall n a, P a -> P (@SpecFloat.iter_pos A f n a).
Proof.
  intros Hf. induction n as [n IH | n IH |]; intros a Ha; cbn; auto.
Qed.

Lemma shr_fexp_nonneg m e l :
  0 <= m -> 0 <= shr_m (fst (shr_fexp prec emax m e l)).
Proof.
  intros Hm. unfold shr_fexp, shr.
  assert (H0 : 0 <= shr_m (shr_record_of_loc m l))
    by (destruct l as [|[]]; done).
  destruct (fexp prec emax (Zdigits2 m + e) - e) as [|p|p]; cbn [fst]; try done.
  apply (iter_pos_invariant (fun mrs => 0 <= shr_m mrs)); [|done].
  apply shr_1_nonneg.
Qed.

Lemma round_nearest_even_nonneg m l :
  0 <= m -> 0 <= round_nearest_even m l.
Proof.
  intros Hm. destruct l as [|[]]; cbn; try done; [|lia].
  destruct (Z.even m); lia.
Qed.

Lemma binary_round_aux_signed sx m e l :
  0 <= m -> signed sx (binary_round_aux prec emax sx m e l).
Proof.
  intros Hm. unfold binary_round_aux.
  pose proof (shr_fexp_nonneg m e l Hm) as H1.
  destruct (shr_fexp prec emax m e l) as [mrs' e'] eqn:E1. cbn [fst] in H1.
  pose proof (shr_fexp_nonneg _ e' loc_Exact
                (round_nearest_even_nonneg _ (loc_of_shr_record mrs') H1))
    as H2.
  destruct (shr_fexp prec emax _ e' loc_Exact) as [mrs'' e''].
  cbn [fst] in H2.
  destruct (shr_m mrs'') as [|p|p]; cbn; [done| |lia].
  by destruct (e'' <=? emax - prec).
Qed.

(** X6. For every form that passes validation, the amount in cents that
    either action sends is a Number that is not NaN and not negative:
    [0 <= amount * 100] holds (the product may be +Infinity). *)
Theorem amount_in_cents_is_not_negative
    (pg : Postgres) (st : State) (id : string) (fd : FormData) (w : World)
    (c : string) (x : number) (s : string) :
  validated fd c x s ->
  exists a : number,
    a = mul x (of_Z 100) /\
    is_nan a = false /\
    le (of_Z 0) a = true /\
    (exists d rest,
       effects (snd (createInvoice pg st fd w)) =
       effects w ++
       EffSql (INSERT_INTO_invoices (JString c) (JNumber a) (JString s) d)
       :: rest) /\
    (exists rest,
       effects (snd (updateInvoice pg id st fd w)) =
       effects w ++
       EffSql (UPDATE_invoices (JString c) (JNumber a) (JString s)
                 (JString id)) :: rest).
Proof.
  intros Hv. exists (mul x (of_Z 100)). split; [done|].
  assert (Hs : signed false (mul x (of_Z 100))).
  { destruct Hv as (_ & _ & Hgt & _).
    destruct x as [[]|[]| |[] m e]; try done.
    unfold mul. change (of_Z 100)
      with (S754_finite false 7036874417766400 (-46)).
    cbn [SFmul xorb]. by apply binary_round_aux_signed. }
  split; [by destruct (mul x (of_Z 100))|].
  split; [destruct (mul x (of_Z 100)) as [[]|[]| |[] m e]; done|].
  rewrite (createInvoice_valid pg st fd w c x s Hv).
  rewrite (updateInvoice_valid pg id st fd w c x s Hv).
  unfold after_query. rewrite run_insert, run_update. cbn [snd].
  split.
  - exists (JString (split_first "T" (toISOString (clock w)))).
    destruct (rejects pg _ (table w)); cbn [effects]; eexists; reflexivity.
  - destruct (rejects pg _ (table w)); cbn [effects]; eexists; reflexivity.
Qed.

(** The smallest amounts stay above zero on this form. *)
Lemma amount_in_cents_is_not_negative_witness :
  validated (form "c1" "12.50" "pending") "c1" (StringToNumber "12.50")
    "pending" /\
  is_nan (mul (StringToNumber "12.50") (of_Z 100)) = false /\
  le (of_Z 0) (mul (StringToNumber "12.50") (of_Z 100)) = true.
Proof.
  split; [exact validated_sample|].
  destruct (amount_in_cents_is_not_negative pg_up no_state "inv1"
              (form "c1" "12.50" "pending") sample_world
              "c1" (StringToNumber "12.50") "pending" validated_sample)
    as (a & -> & H1 & H2 & _).
  exact (conj H1 H2).
Defined.

(** ** Updates of the table, one after another *)

Lemma updateInvoice_table pg st id fd w c x s :
  validated fd c x s ->
  table (snd (updateInvoice pg id st fd w)) =
  if rejects pg (update_query c x s id) (table w) then table w
  else updated c x s id (table w).
Proof.
  intros Hv. rewrite (updateInvoice_valid pg id st fd w c x s Hv).
  unfold after_query. rewrite run_update. cbn [snd].
  by destruct (rejects pg _ (table w)).
Qed.

Lemma updated_unknown c x s id t :
  (forall r, In r t -> invoices.id r <> id) -> updated c x s id t = t.
Proof.
  intros H. unfold updated. rewrite <- (map_id t) at 2.
  apply map_ext_in. intros r Hr.
  destruct (String.eqb_spec (invoices.id r) id) as [Heq|]; [|done].
  by destruct (H r Hr).
Qed.

Lemma set_columns_id c a s r :
  invoices.id (set_columns c a s r) = invoices.id r.
Proof. reflexivity. Qed.

Lemma updated_twice c1 x1 s1 c2 x2 s2 id t :
  updated c2 x2 s2 id (updated c1 x1 s1 id t) = updated c2 x2 s2 id t.
Proof.
  unfold updated. rewrite map_map. apply map_ext. intros r.
  destruct (String.eqb (invoices.id r) id) eqn:E; cbn beta iota.
  - by rewrite set_columns_id, E.
  - by rewrite E.
Qed.

Lemma updated_commute c1 x1 s1 id1 c2 x2 s2 id2 t :
  id1 <> id2 ->
  updated c2 x2 s2 id2 (updated c1 x1 s1 id1 t) =
  updated c1 x1 s1 id1 (updated c2 x2 s2 id2 t).
Proof.
  intros Hne. unfold updated. rewrite !map_map. apply map_ext. intros r.
  destruct (String.eqb_spec (invoices.id r) id1) as [H1|H1];
    destruct (String.eqb_spec (invoices.id r) id2) as [H2|H2].
  - congruence.
  - rewrite set_columns_id.
    destruct (String.eqb_spec (invoices.id r) id2); [done|].
    destruct (String.eqb_spec (invoices.id r) id1); done.
  - rewrite set_columns_id.
    destruct (String.eqb_spec (invoices.id r) id2); [|done].
    destruct (String.eqb_spec (invoices.id r) id1); done.
  - destruct (String.eqb_spec (invoices.id r) id1),
      (String.eqb_spec (invoices.id r) id2); done.
Qed.

(** X7. When no row of the table has the id, [updateInvoice] with a valid
    form changes no row, and the caller cannot tell: the action redirects
    to the listing as after any update and, when the server accepts the
    statement, nothing is logged. *)
Theorem update_of_unknown_id_is_silent
    (pg : Postgres) (st : State) (id : string) (fd : FormData) (w : World)
    (c : string) (x : number) (s : string) :
  validated fd c x s ->
  (forall r, In r (table w) -> invoices.id r <> id) ->
  fst (updateInvoice pg id st fd w) =
    Throw (NEXT_REDIRECT "/dashboard/invoices") /\
  table (snd (updateInvoice pg id st fd w)) = table w /\
  (rejects pg (update_query c x s id) (table w) = false ->
   effects (snd (updateInvoice pg id st fd w)) =
   effects w ++ [EffSql (update_query c x s id);
                 EffRevalidatePath "/dashboard/invoices"]).
Proof.
  intros Hv Hid.
  rewrite (updateInvoice_table pg st id fd w c x s Hv).
  rewrite (updated_unknown c x s id (table w) Hid).
  rewrite (updateInvoice_valid pg id st fd w c x s Hv).
  unfold after_query. rewrite run_update. cbn [fst snd].
  split; [done|]. split; [by destruct (rejects pg _ (table w))|].
  by intros ->.
Qed.

Lemma validated_update_sample :
  validated (form "c2" "5" "paid") "c2" (StringToNumber "5") "paid".
Proof. unfold validated. repeat split; try reflexivity. by right. Defined.

Lemma accepts_all_pg_up : accepts_all pg_up.
Proof. intros q t. reflexivity. Defined.

(** No invoice inv9 in the sample table. *)
Lemma update_of_unknown_id_is_silent_witness :
  validated (form "c2" "5" "paid") "c2" (StringToNumber "5") "paid" /\
  (forall r, In r (table sample_world) -> invoices.id r <> "inv9") /\
  table (snd (updateInvoice pg_up "inv9" no_state (form "c2" "5" "paid")
                sample_world)) = table sample_world.
Proof.
  assert (H : forall r, In r (table sample_world) -> invoices.id r <> "inv9").
  { intros r [<- | []]. discriminate. }
  split; [exact validated_update_sample|]. split; [exact H|].
  destruct (update_of_unknown_id_is_silent pg_up no_state "inv9"
              (form "c2" "5" "paid") sample_world
              "c2" (StringToNumber "5") "paid" validated_update_sample H)
    as (_ & Ht & _).
  exact Ht.
Defined.

(** X8. The last write wins: with a server that accepts every statement,
    updating an id with one valid form and then with another leaves the
    table as the second update alone would have left it.  (With the same
    form twice: updating is idempotent.) *)
Theorem last_update_wins
    (pg : Postgres) (st st' : State) (id : string) (fdA fdB : FormData)
    (w : World) (cA : string) (xA : number) (sA : string)
    (cB : string) (xB : number) (sB : string) :
  accepts_all pg ->
  validated fdA cA xA sA ->
  validated fdB cB xB sB ->
  table (snd (updateInvoice pg id st' fdB
                (snd (updateInvoice pg id st fdA w)))) =
  table (snd (updateInvoice pg id st' fdB w)).
Proof.
  intros Hpg HA HB.
  rewrite (updateInvoice_table pg st' id fdB _ cB xB sB HB).
  rewrite (updateInvoice_table pg st id fdA w cA xA sA HA).
  rewrite (updateInvoice_table pg st' id fdB w cB xB sB HB).
  rewrite !Hpg. apply updated_twice.
Qed.

Lemma last_update_wins_witness :
  accepts_all pg_up /\
  table (snd (updateInvoice pg_up "inv1" no_state (form "c2" "5" "paid")
                (snd (updateInvoice pg_up "inv1" no_state
                        (form "c1" "12.50" "pending") sample_world)))) =
  table (snd (updateInvoice pg_up "inv1" no_state (form "c2" "5" "paid")
                sample_world)).
Proof.
  split; [exact accepts_all_pg_up|].
  exact (last_update_wins pg_up no_state no_state "inv1"
           (form "c1" "12.50" "pending") (form "c2" "5" "paid") sample_world
           "c1" (StringToNumber "12.50") "pending"
           "c2" (StringToNumber "5") "paid"
           accepts_all_pg_up validated_sample validated_update_sample).
Defined.

(** X9. Updates of different ids do not interfere: with a server that
    accepts every statement, two updates with valid forms on two different
    ids leave the same table in either order. *)
Theorem updates_of_different_ids_commute
    (pg : Postgres) (st st' : State) (id1 id2 : string) (fdA fdB : FormData)
    (w : World) (cA : string) (xA : number) (sA : string)
    (cB : string) (xB : number) (sB : string) :
  accepts_all pg ->
  id1 <> id2 ->
  validated fdA cA xA sA ->
  validated fdB cB xB sB ->
  table (snd (updateInvoice pg id2 st' fdB
                (snd (updateInvoice pg id1 st fdA w)))) =
  table (snd (updateInvoice pg id1 st fdA
                (snd (updateInvoice pg id2 st' fdB w)))).
Proof.
  intros Hpg Hne HA HB.
  rewrite (updateInvoice_table pg st' id2 fdB _ cB xB sB HB).
  rewrite (updateInvoice_table pg st id1 fdA w cA xA sA HA).
  rewrite (updateInvoice_table pg st id1 fdA _ cA xA sA HA).
  rewrite (updateInvoice_table pg st' id2 fdB w cB xB sB HB).
  rewrite !Hpg. by apply updated_commute.
Qed.

Lemma updates_of_different_ids_commute_witness :
  accepts_all pg_up /\ "inv1" <> "inv2" /\
  table (snd (updateInvoice pg_up "inv2" no_state (form "c2" "5" "paid")
                (snd (updateInvoice pg_up "inv1" no_state
                        (form "c1" "12.50" "pending") sample_world)))) =
  table (snd (updateInvoice pg_up "inv1" no_state
                (form "c1" "12.50" "pending")
                (snd (updateInvoice pg_up "inv2" no_state
                        (form "c2" "5" "paid") sample_world)))).
Proof.
  assert (Hne : "inv1" <> "inv2") by discriminate.
  split; [exact accepts_all_pg_up|]. split; [exact Hne|].
  exact (updates_of_different_ids_commute pg_up no_state no_state
           "inv1" "inv2"
           (form "c1" "12.50" "pending") (form "c2" "5" "paid") sample_world
           "c1" (StringToNumber "12.50") "pending"
           "c2" (StringToNumber "5") "paid"
           accepts_all_pg_up Hne validated_sample validated_update_sample).
Defined.

(** X10. No action of the module removes a row or changes the id or the
    date of a row: after [createInvoice], [updateInvoice] or
    [deleteInvoice], on any input and whatever the server answers, every
    row of the table is still at its place with the id and the date it
    had. *)
Theorem rows_keep_their_id_and_date
    (pg : Postgres) (st : State) (id : string) (fd : FormData) (w : World) :
  let kept (w' : World) : Prop :=
    forall (i : nat) (r : invoices.row),
      table w !! i = Some r ->
      exists r' : invoices.row,
        table w' !! i = Some r' /\
        invoices.id r' = invoices.id r /\
        invoices.date r' = invoices.date r in
  kept (snd (createInvoice pg st fd w)) /\
  kept (snd (updateInvoice pg id st fd w)) /\
  kept (snd (deleteInvoice pg id w)).
Proof.
  cbn zeta.
  assert (Hsame : forall i r, table w !! i = Some r ->
            exists r', table w !! i = Some r' /\
                       invoices.id r' = invoices.id r /\
                       invoices.date r' = invoices.date r)
    by (intros i r Hr; by exists r).
  split; [|split]; [| |exact Hsame].
  - destruct (success (safeParse CreateInvoice (form_fields fd))) eqn:H.
    + apply validated_of_success in H as (c & x & s & Hv).
      rewrite (createInvoice_valid pg st fd w c x s Hv).
      unfold after_query. rewrite run_insert. cbn [snd].
      destruct (rejects pg _ (table w)); cbn [table]; [exact Hsame|].
      intros i r Hr. exists r. split; [|done].
      by apply lookup_app_l_Some.
    + destruct (failure_report pg st id fd w H) as (-> & _). exact Hsame.
  - destruct (success (safeParse CreateInvoice (form_fields fd))) eqn:H.
    + apply validated_of_success in H as (c & x & s & Hv).
      rewrite (updateInvoice_table pg st id fd w c x s Hv).
      destruct (rejects pg _ (table w)); [exact Hsame|].
      intros i r Hr. unfold updated. rewrite lookup_map, Hr. cbn.
      eexists. split; [reflexivity|].
      by destruct (String.eqb (invoices.id r) id).
    + destruct (failure_report pg st id fd w H) as (_ & -> & _). exact Hsame.
Qed.

(** ** Why the schema is used with [id] and [date] omitted *)

Lemma FormSchema_NoDup : NoDup (map fst FormSchema).
Proof. by apply (bool_decide_unpack (NoDup _)). Qed.

(** X11. [FormSchema] as declared, with its [id] and [date] fields, accepts
    no form at all: the object the actions build has neither property, so
    parsing it reports "Required" under [id] and under [date] whatever the
    form holds.  Only the schemas with the two fields omitted can pass. *)
Theorem FormSchema_itself_rejects_every_form (fd : FormData) :
  success (safeParse FormSchema (form_fields fd)) = false /\
  fieldErrors (error_issues (safeParse FormSchema (form_fields fd))) !! "id"
    = Some ["Required"] /\
  fieldErrors (error_issues (safeParse FormSchema (form_fields fd))) !! "date"
    = Some ["Required"].
Proof.
  assert (Hid : field_messages FormSchema "id" (form_fields fd) = ["Required"])
    by reflexivity.
  assert (Hdate : field_messages FormSchema "date" (form_fields fd)
                  = ["Required"]) by reflexivity.
  assert (Hf : success (safeParse FormSchema (form_fields fd)) = false).
  { destruct (success _) eqn:E; [|done].
    apply safeParse_success_iff in E.
    rewrite <- (messages_at_object "id" _ _ FormSchema_NoDup), E in Hid.
    done. }
  split; [done|].
  rewrite (safeParse_error_issues _ _ Hf). cbn [error_issues].
  rewrite !(fieldErrors_object _ _ _ FormSchema_NoDup), Hid, Hdate. done.
Qed.

(** ** The date and the day *)

Lemma digit_char_inj n n' :
  digit_char n = digit_char n' -> n mod 10 = n' mod 10.
Proof.
  unfold digit_char. intros H.
  pose proof (Z.mod_pos_bound n 10 eq_refl).
  pose proof (Z.mod_pos_bound n' 10 eq_refl).
  apply (f_equal N_of_ascii) in H.
  rewrite !N_ascii_embedding in H by lia. lia.
Qed.

(** The digits that [pad] writes determine the number up to [10 ^ width],
    and what follows them. *)
Lemma pad_inj w :
  forall n n' suffix suffix',
    pad w n suffix = pad w n' suffix' ->
    n mod 10 ^ Z.of_nat w = n' mod 10 ^ Z.of_nat w /\ suffix = suffix'.
Proof.
  induction w as [|w IH]; intros n n' suffix suffix' H.
  - cbn in H. by rewrite !Z.mod_1_r.
  - cbn [pad] in H. apply IH in H as [Hq H]. injection H as Hd ->.
    split; [|done]. apply digit_char_inj in Hd.
    rewrite Nat2Z.inj_succ, Z.pow_succ_r by lia.
    rewrite !Z.rem_mul_r by lia. by rewrite Hq, Hd.
Qed.

Lemma String_tail_inj a s a' s' : String a s = String a' s' -> s = s'.
Proof. by intros [= _ ->]. Qed.

Lemma month_length_le leap m : month_length leap m <= 31.
Proof.
  unfold month_length. destruct leap;
    repeat match goal with
           | |- context [match ?p with _ => _ end] => destruct p
           end; lia.
Qed.

Lemma DateFromTime_bounds t : 1 <= DateFromTime t <= 31.
Proof.
  pose proof (civil_date_of_time t) as [[_ Hd] _]. cbn zeta in Hd.
  unfold days_in_month in Hd.
  pose proof (month_length_le (is_leap (YearFromTime t)) (MonthFromTime t + 1)).
  lia.
Qed.

(** X12. The date that [createInvoice] computes names the UTC day and
    nothing more: for two clocks in the years 0000 to 9999, the date
    strings are equal exactly when the two time values fall on the same
    UTC day. *)
Theorem date_names_the_day (t1 t2 : Z) :
  four_digit_years t1 ->
  four_digit_years t2 ->
  (split_first "T" (toISOString t1) = split_first "T" (toISOString t2) <->
   Day t1 = Day t2).
Proof.
  intros H1 H2. rewrite !split_toISOString. split.
  - rewrite (iso_date_four_digits _ H1), (iso_date_four_digits _ H2).
    intros H. apply pad_inj in H as [Hy H]. apply String_tail_inj in H.
    apply pad_inj in H as [Hm H]. apply String_tail_inj in H.
    apply pad_inj in H as [Hd _].
    apply YearFromTime_four_digits in H1, H2.
    pose proof (civil_date_of_time t1) as [[Hm1 _] E1].
    pose proof (civil_date_of_time t2) as [[Hm2 _] E2].
    pose proof (DateFromTime_bounds t1).
    pose proof (DateFromTime_bounds t2).
    cbn zeta in *.
    change (10 ^ Z.of_nat 4) with 10000 in Hy.
    change (10 ^ Z.of_nat 2) with 100 in Hm, Hd.
    rewrite !Z.mod_small in Hy, Hm, Hd by lia.
    by rewrite <- E1, <- E2, Hy, Hm, Hd.
  - intros H. unfold iso_date, DateFromTime, MonthFromTime, DayWithinYear,
      InLeapYear, YearFromTime. by rewrite H.
Qed.

(** The sample clock and the last millisecond of its day. *)
Lemma date_names_the_day_witness :
  four_digit_years 1793555696789 /\
  four_digit_years 1793577599999 /\
  split_first "T" (toISOString 1793555696789) =
  split_first "T" (toISOString 1793577599999).
Proof.
  assert (H1 : four_digit_years 1793555696789)
    by (unfold four_digit_years; lia).
  assert (H2 : four_digit_years 1793577599999)
    by (unfold four_digit_years; lia).
  split; [exact H1|]. split; [exact H2|].
  apply (proj2 (date_names_the_day 1793555696789 1793577599999 H1 H2)).
  reflexivity.
Defined.

(** * Properties of the edit page *)

Section EditPageFacts.

Import EditPage.

Context {InvoiceForm CustomerField : Type}.
Variable fetchInvoiceById : string -> Settled (option InvoiceForm).
Variable fetchCustomers : Settled (list CustomerField).

Lemma append_inj_l p : forall a b, p +:+ a = p +:+ b -> a = b.
Proof.
  induction p as [|c p IH]; intros a b H; cbn in H; [done|].
  injection H as H. by apply IH.
Qed.

(** The length of a concatenation. *)
Lemma length_append (a b : string) :
  (String.length a + String.length b)%nat = String.length (a +:+ b).
Proof.
  induction a as [|c a IH]; [done|].
  change (S (String.length a + String.length b) = S (String.length (a +:+ b))).
  by rewrite IH.
Qed.

Lemma append_inj_r suffix : forall a b,
  a +:+ suffix = b +:+ suffix -> a = b.
Proof.
  assert (Hlen : forall c a, String c a +:+ suffix <> suffix).
  { intros c a H. apply (f_equal String.length) in H.
    rewrite <- length_append in H.
    change (String.length (String c a)) with (S (String.length a)) in H.
    lia. }
  induction a as [|c a IH]; intros [|c' b] H.
  - done.
  - symmetry in H. by apply Hlen in H.
  - by apply Hlen in H.
  - change (String c (a +:+ suffix) = String c' (b +:+ suffix)) in H.
    injection H as -> H. f_equal. by apply IH.
Qed.

Lemma edit_href_inj id id' : edit_href id' = edit_href id -> id' = id.
Proof.
  unfold edit_href. intros H.
  apply append_inj_l in H. by apply append_inj_r in H.
Qed.

(** X13. The page answers not-found exactly when both fetches succeed and
    there is no invoice of that id, and it returns a tree exactly when
    both succeed and the invoice exists.  The two fetches are awaited
    together, so a customers fetch that fails makes the page fail with
    that reason even when the invoice does not exist: the not-found check
    is not reached. *)
Theorem page_ends_by_its_fetches (second_first : bool) (id : string) :
  (Page fetchInvoiceById fetchCustomers second_first id = NEXT_NOT_FOUND <->
   fetchInvoiceById id = Fulfilled None /\
   exists cs, fetchCustomers = Fulfilled cs) /\
  ((exists tree,
      Page fetchInvoiceById fetchCustomers second_first id = Returned tree) <->
   exists inv cs,
     fetchInvoiceById id = Fulfilled (Some inv) /\
     fetchCustomers = Fulfilled cs) /\
  (forall reason,
     fetchCustomers = Rejected reason ->
     fetchInvoiceById id = Fulfilled None ->
     Page fetchInvoiceById fetchCustomers second_first id = Thrown reason).
Proof.
  unfold Page, Promise_all.
  destruct (fetchInvoiceById id) as [[inv|]|e1], fetchCustomers as [cs|e2];
    repeat split; try done;
    try (intros (? & ? & ? & ?); done);
    try (intros (? & ? & ?); done);
    try (intros (? & ?); done);
    try (intros ? [= ->] ?; done).
  - intros _. by exists inv, cs.
  - intros _. by eexists.
  - by exists cs.
Qed.

(** X14. A page that returns a tree has fetched the invoice and the
    customers and hands exactly those to the form, under a trail of two
    items whose only active item is the last one, "Edit Invoice".  The
    link of that item names the invoice: two ids with the same edit link
    are the same id. *)
Theorem edit_trail_names_the_invoice
    (second_first : bool) (id : string)
    (tree : Element InvoiceForm CustomerField) :
  Page fetchInvoiceById fetchCustomers second_first id = Returned tree ->
  exists inv cs bs,
    fetchInvoiceById id = Fulfilled (Some inv) /\
    fetchCustomers = Fulfilled cs /\
    tree = main [Breadcrumbs bs; Form inv cs] /\
    length bs = 2%nat /\
    last bs = Some (mkBreadcrumb "Edit Invoice" (edit_href id) (Some true)) /\
    active_items bs =
      [mkBreadcrumb "Edit Invoice" (edit_href id) (Some true)] /\
    (forall id', edit_href id' = edit_href id -> id' = id).
Proof.
  unfold Page, Promise_all.
  destruct (fetchInvoiceById id) as [[inv|]|e1], fetchCustomers as [cs|e2];
    try done.
  intros [= <-]. exists inv, cs. eexists.
  repeat split; try reflexivity. apply edit_href_inj.
Qed.

End EditPageFacts.

(** An invoice and two customers, as plain strings. *)
Lemma edit_trail_names_the_invoice_witness :
  EditPage.Page (InvoiceForm := string) (CustomerField := string)
    (fun id => EditPage.Fulfilled (Some id))
    (EditPage.Fulfilled ["c1"; "c2"]) false "inv1"
  = EditPage.Returned
      (EditPage.main
         [EditPage.Breadcrumbs
            [EditPage.mkBreadcrumb "Invoices" "/dashboard/invoices" None;
             EditPage.mkBreadcrumb "Edit Invoice"
               "/dashboard/invoices/inv1/edit" (Some true)];
          EditPage.Form "inv1" ["c1"; "c2"]]) /\
  exists bs,
    length bs = 2%nat /\
    EditPage.active_items bs =
      [EditPage.mkBreadcrumb "Edit Invoice" (EditPage.edit_href "inv1")
         (Some true)].
Proof.
  split; [reflexivity|].
  destruct (edit_trail_names_the_invoice
              (fun id => EditPage.Fulfilled (Some id))
              (EditPage.Fulfilled ["c1"; "c2"]) false "inv1" _ eq_refl)
    as (inv & cs & bs & _ & _ & _ & Hl & _ & Ha & _).
  exists bs. exact (conj Hl Ha).
Defined.

(** * Further properties: creating, then updating; the shape of [errors] *)

(** X15. An invoice that is created and later updated keeps the date of
    its creation.  With a server that accepts every statement and gives
    the new row an id no row has, [createInvoice] with one valid form and
    then, at any later clock, [updateInvoice] of that id with another
    valid form leave the old rows as they were, followed by one row with
    the id, the three values of the second form and the date of the first
    clock. *)
Theorem created_then_updated_keeps_its_date
    (pg : Postgres) (st st' : State) (fdA fdB : FormData) (w : World)
    (later : Z) (cA : string) (xA : number) (sA : string)
    (cB : string) (xB : number) (sB : string) :
  accepts_all pg ->
  validated fdA cA xA sA ->
  validated fdB cB xB sB ->
  (forall r, In r (table w) -> invoices.id r <> new_id pg (table w)) ->
  let w1 := snd (createInvoice pg st fdA w) in
  let w2 := mkWorld (table w1) later (effects w1) in
  table (snd (updateInvoice pg (new_id pg (table w)) st' fdB w2)) =
  table w ++
  [invoices.mkRow (new_id pg (table w)) cB (mul xB (of_Z 100)) sB
     (split_first "T" (toISOString (clock w)))].
Proof.
  intros Hpg HA HB Hfresh. cbn zeta.
  rewrite (updateInvoice_table pg st' _ fdB _ cB xB sB HB), Hpg.
  cbn [table].
  rewrite (createInvoice_valid pg st fdA w cA xA sA HA).
  unfold after_query. rewrite run_insert, Hpg. cbn [snd table].
  unfold updated at 1. rewrite map_app.
  fold (updated cB xB sB (new_id pg (table w)) (table w)).
  rewrite (updated_unknown _ _ _ _ _ Hfresh).
  cbn [map invoices.id]. by rewrite String.eqb_refl.
Qed.

Lemma created_then_updated_keeps_its_date_witness :
  accepts_all pg_up /\
  (forall r, In r (table sample_world) ->
             invoices.id r <> new_id pg_up (table sample_world)) /\
  table (snd (updateInvoice pg_up "inv-new" no_state (form "c2" "5" "paid")
                (mkWorld
                   (table (snd (createInvoice pg_up no_state
                                  (form "c1" "12.50" "pending") sample_world)))
                   1893456000000
                   (effects (snd (createInvoice pg_up no_state
                                    (form "c1" "12.50" "pending")
                                    sample_world)))))) =
  table sample_world ++
  [invoices.mkRow "inv-new" "c2" (of_Z 500) "paid" "2026-11-01"].
Proof.
  assert (H : forall r, In r (table sample_world) ->
                        invoices.id r <> new_id pg_up (table sample_world)).
  { intros r [<- | []]. discriminate. }
  split; [exact accepts_all_pg_up|]. split; [exact H|].
  exact (created_then_updated_keeps_its_date pg_up no_state no_state
           (form "c1" "12.50" "pending") (form "c2" "5" "paid") sample_world
           1893456000000
           "c1" (StringToNumber "12.50") "pending"
           "c2" (StringToNumber "5") "paid"
           accepts_all_pg_up validated_sample validated_update_sample H).
Defined.

(** X16. Whatever the form, the [errors] that [createInvoice] or
    [updateInvoice] returns hold entries under [customerId], [amount] and
    [status] only, and every entry is a list of exactly one message: a
    field never gets two messages, nor an empty list. *)
Theorem errors_hold_one_message_per_field
    (pg : Postgres) (st : State) (id : string) (fd : FormData) (w : World)
    (key : string) (msgs : list string) :
  returned_errors (createInvoice pg st fd w) key = Some msgs \/
  returned_errors (updateInvoice pg id st fd w) key = Some msgs ->
  (key = "customerId" \/ key = "amount" \/ key = "status") /\
  exists m : string, msgs = [m].
Proof.
  unfold returned_errors.
  destruct (success (safeParse CreateInvoice (form_fields fd))) eqn:H.
  - apply validated_of_success in H as (c & x & s & Hv).
    rewrite (createInvoice_valid pg st fd w c x s Hv).
    rewrite (updateInvoice_valid pg id st fd w c x s Hv).
    cbn. by intros [|].
  - destruct (failure_report pg st id fd w H)
      as (-> & -> & E1 & E2 & E3 & E4).
    cbn. intros Hk. assert (Hm : form_errors fd !! key = Some msgs)
      by (by destruct Hk).
    clear Hk.
    destruct (String.eqb_spec key "customerId") as [->|N1].
    { split; [by left|]. rewrite E1 in Hm.
      unfold customerId_errors in Hm.
      destruct (FormData_get "customerId" fd); try done;
        injection Hm as <-; by eexists. }
    destruct (String.eqb_spec key "amount") as [->|N2].
    { split; [by right; left|]. rewrite E2 in Hm.
      unfold amount_errors in Hm. cbn zeta in Hm.
      destruct (is_nan _); [injection Hm as <-; by eexists|].
      destruct (le _ _); [injection Hm as <-; by eexists|done]. }
    destruct (String.eqb_spec key "status") as [->|N3].
    { split; [by right; right|]. rewrite E3 in Hm.
      unfold status_errors in Hm.
      destruct (FormData_get "status" fd) as [| |s0| |];
        try (injection Hm as <-; by eexists).
      destruct (string_in s0 ["pending"; "paid"]);
        [done | injection Hm as <-; by eexists]. }
    by rewrite (E4 key N1 N2 N3) in Hm.
Qed.

Lemma errors_hold_one_message_per_field_witness :
  returned_errors
    (createInvoice pg_up no_state [("amount", EntryString "0")] sample_world)
    "status" = Some ["Please select an invoice status."] /\
  exists m : string, ["Please select an invoice status."] = [m].
Proof.
  split; [reflexivity|].
  exact (proj2 (errors_hold_one_message_per_field pg_up no_state "inv1"
                  [("amount", EntryString "0")] sample_world "status"
                  ["Please select an invoice status."]
                  (or_introl eq_refl))).
Defined.
